(** * Evaluation runner and comparative statistics: a shallow embedding

    The development follows the Python sources file by file:

    - [Py]        the few built-ins of Python the sources rely on
                  ([str], [str.strip], [str.upper], slicing, [zip]);
    - [Mcnemar]   [calculate_mcnemar.py], the comparator that accepts
                  concatenated inputs;
    - [BC]        [calculate_b_c.py], the minimal comparator for two aligned
                  files;
    - [Pareto]    [pareto_analysis.py], the dominance test;
    - [Evaluate]  [evaluate.py], the regular expression that removes the
                  reasoning span and the retry loop of the runner;
    - [FindFalse], [EvaluateNames], [Names], [AddGpuCount]
                  [find_false_questions.py], the name handling of
                  [evaluate.py], the language suffix and the family of a
                  run ([pareto_analysis.py], [graph_families.py],
                  [generate_graph.py], [sanitize_names.py]) and the GPU
                  count of [add_gpu_count.py], over the text built-ins of
                  [PyText].

    Conventions.  Python [int] is [Z].  A finite Python [float] is the
    rational it denotes ([Q]): the comparisons [<] and [>] on finite floats
    are exact, and the true division of two integers is read as the exact
    quotient.  Text is [string]; the characters are the ASCII ones, for which
    [str.strip] and [str.upper] are given in full.  A JSON object is a
    [gmap string jvalue]. *)

From Stdlib Require Import ZArith QArith Qabs Lia Bool List.
From Stdlib Require Import Strings.Ascii Strings.String Numbers.DecimalString.
From stdpp Require Import base option list strings gmap.

Set Default Proof Using "Type".

(* ===================================================================== *)
(** * Python built-ins                                                    *)
(* ===================================================================== *)

Module Py.

Local Open Scope string_scope.
Local Open Scope Z_scope.

(** JSON values as [json.loads] returns them (scalars and text; the
    sources never look inside a nested value of a record field). *)
Inductive jvalue : Type :=
| JNull
| JBool (b : bool)
| JInt (z : Z)
| JStr (s : string).

#[global] Instance jvalue_eq_dec : EqDecision jvalue.
Proof. solve_decision. Defined.

(** A JSON object, i.e. a Python [dict] with text keys. *)
Abbreviation jobject := (gmap string jvalue).

(** [str(v)] *)
Definition str (v : jvalue) : string :=
  match v with
  | JNull => "None"
  | JBool true => "True"
  | JBool false => "False"
  | JInt z => NilZero.string_of_int (Z.to_int z)
  | JStr s => s
  end.

(** [d.get(key, default)] *)
Definition get (d : jobject) (key : string) (dflt : jvalue) : jvalue :=
  default dflt (d !! key).

(** [key in d] *)
Definition contains (d : jobject) (key : string) : bool :=
  bool_decide (is_Some (d !! key)).

(** [c.isspace()] on the ASCII range: TAB, LF, VT, FF, CR, the four
    separators 0x1c-0x1f and the space. *)
Definition isspace (c : ascii) : bool :=
  let n := Z.of_nat (nat_of_ascii c) in
  ((9 <=? n) && (n <=? 13)) || ((28 <=? n) && (n <=? 31)) || (n =? 32).

(** [s.lstrip()] *)
Fixpoint lstrip (s : string) : string :=
  match s with
  | String c s' => if isspace c then lstrip s' else s
  | EmptyString => EmptyString
  end.

(** [s.rstrip()]: a character is dropped when it is white space and
    everything after it was dropped. *)
Fixpoint rstrip (s : string) : string :=
  match s with
  | EmptyString => EmptyString
  | String c s' =>
      match rstrip s' with
      | EmptyString => if isspace c then EmptyString else String c EmptyString
      | r => String c r
      end
  end.

(** [s.strip()] *)
Definition strip (s : string) : string := rstrip (lstrip s).

(** The text begins, or ends, with a white-space character. *)
Definition starts_with_space (s : string) : bool :=
  match s with
  | String c _ => isspace c
  | EmptyString => false
  end.

Fixpoint ends_with_space (s : string) : bool :=
  match s with
  | EmptyString => false
  | String c EmptyString => isspace c
  | String _ s' => ends_with_space s'
  end.

(** [c.upper()] on the ASCII range. *)
Definition upper_char (c : ascii) : ascii :=
  let n := nat_of_ascii c in
  if ((97 <=? n) && (n <=? 122))%nat then ascii_of_nat (n - 32) else c.

(** [s.upper()] *)
Fixpoint upper (s : string) : string :=
  match s with
  | EmptyString => EmptyString
  | String c s' => String (upper_char c) (upper s')
  end.

(** [xs[:n]]: a negative [n] counts from the end. *)
Definition slice_to {A} (xs : list A) (n : Z) : list A :=
  if n <? 0 then take (length xs - Z.to_nat (- n)) xs
  else take (Z.to_nat n) xs.

(** [range(lo, hi)] *)
Definition range (lo hi : Z) : list Z :=
  map (fun i => lo + Z.of_nat i) (seq 0 (Z.to_nat (hi - lo))).

(** [x < y] on finite floats. *)
Definition float_lt (x y : Q) : bool := negb (Qle_bool y x).

(** [zip(xs, ys)]: stops at the shorter list. *)
Fixpoint zip {A B} (xs : list A) (ys : list B) : list (A * B) :=
  match xs, ys with
  | x :: xs', y :: ys' => (x, y) :: zip xs' ys'
  | _, _ => []
  end.

(** [enumerate(xs)], counting from [start]. *)
Fixpoint enumerate_from {A} (start : nat) (xs : list A) : list (nat * A) :=
  match xs with
  | [] => []
  | x :: xs' => (start, x) :: enumerate_from (S start) xs'
  end.

Definition enumerate {A} (xs : list A) : list (nat * A) := enumerate_from 0 xs.

(** What a call does: it returns, or it raises an exception, of which the
    model keeps the class name and the message. *)
Inductive outcome (A : Type) : Type :=
| Return (a : A)
| Raise (cls msg : string).
Arguments Return {A} a.
Arguments Raise {A} cls msg.

(** [v == w] on JSON scalars: [True == 1] and [False == 0] hold in Python,
    every other pair of different shapes is unequal. *)
Definition as_int (v : jvalue) : option Z :=
  match v with
  | JBool true => Some 1
  | JBool false => Some 0
  | JInt z => Some z
  | _ => None
  end.

Definition eqb (v w : jvalue) : bool :=
  match as_int v, as_int w with
  | Some x, Some y => (x =? y)
  | _, _ => bool_decide (v = w)
  end.

(** [v != w] *)
Definition neqb (v w : jvalue) : bool := negb (eqb v w).

(** [len(xs)] printed inside an f-string. *)
Definition len_text {A} (xs : list A) : string :=
  str (JInt (Z.of_nat (length xs))).

(** ** Console output and exceptions

    A computation takes the lines printed so far and gives its outcome and
    the lines printed by then; what was printed before an exception stays
    printed. *)
Definition io (A : Type) : Type := list string -> outcome A * list string.

Definition io_ret {A} (x : A) : io A := fun out => (Return x, out).

Definition io_bind {A B} (m : io A) (k : A -> io B) : io B :=
  fun out =>
    match m out with
    | (Return x, out') => k x out'
    | (Raise cls msg, out') => (Raise cls msg, out')
    end.

#[global] Instance io_mret : MRet io := @io_ret.
#[global] Instance io_mbind : MBind io := fun A B k m => io_bind m k.

(** [print(line)] *)
Definition print (line : string) : io unit := 
  fun out => (Return tt, (out ++ [line])%list).

(** [raise cls(msg)] *)
Definition raise {A} (cls msg : string) : io A := fun out => (Raise cls msg, out).

(** Run a computation on an empty console. *)
Definition run {A} (m : io A) : outcome A * list string := m [].

(** [for x in xs: st = body(x, st)] *)
Fixpoint for_each {A S} (xs : list A) (body : A -> S -> io S) (st : S) : io S :=
  match xs with
  | [] => io_ret st
  | x :: xs' => io_bind (body x st) (for_each xs' body)
  end.

End Py.


(* ===================================================================== *)
(** * calculate_mcnemar.py                                                *)
(* ===================================================================== *)

Module Mcnemar.
Import Py.

(** The result record of [calculate_mcnemar_values]. *)
Record table : Type := Table {
  model1 : string;
  model2 : string;
  a : Z;
  b : Z;
  c : Z;
  d : Z;
  total : Z
}.

(** [str(q.get('grade', '')).strip().upper() == 'T'] *)
Definition is_match (q : jobject) : bool :=
  bool_decide (upper (strip (str (get q "grade" (JStr "")))) = "T"%string).

(** The four counters the loop updates. *)
Record counts : Type := Counts { n_a : Z; n_b : Z; n_c : Z; n_d : Z }.

(** The [if]/[elif] chain at the end of the loop body. *)
Definition tally (m1 m2 : bool) (k : counts) : counts :=
  if m1 && m2 then Counts (n_a k + 1) (n_b k) (n_c k) (n_d k)
  else if m1 && negb m2 then Counts (n_a k) (n_b k + 1) (n_c k) (n_d k)
  else if negb m1 && m2 then Counts (n_a k) (n_b k) (n_c k + 1) (n_d k)
  else Counts (n_a k) (n_b k) (n_c k) (n_d k + 1).

(** The body of the loop over [zip(results1, results2)].  The branch taken
    when both records carry a [question_num] and the two differ is [pass]:
    it prints nothing and the loop goes on. *)
Definition loop_body (pair : jobject * jobject) (k : counts) : io counts :=
  let '(q1, q2) := pair in
  (if contains q1 "question_num" && contains q2 "question_num" then
     if neqb (get q1 "question_num" JNull) (get q2 "question_num" JNull)
     then io_ret tt
     else io_ret tt
   else io_ret tt) ;;
  let m1 := is_match q1 in
  let m2 := is_match q2 in
  io_ret (tally m1 m2 k).

(** What the loop leaves in the counters when no iteration raises: the
    tally of every pair, from the first to the last. *)
Definition tally_from (k : counts) (pairs : list (jobject * jobject)) : counts :=
  fold_left (fun k '(q1, q2) => tally (is_match q1) (is_match q2) k) pairs k.

(** The pairs counted so far, and the counters being non-negative. *)
Definition count_sum (k : counts) : Z := (n_a k + n_b k + n_c k + n_d k)%Z.

Definition counts_nonneg (k : counts) : Prop :=
  (0 <= n_a k)%Z /\ (0 <= n_b k)%Z /\ (0 <= n_c k)%Z /\ (0 <= n_d k)%Z.

(** The record built from the counters. *)
Definition table_of (name1 name2 : string) (k : counts) : table :=
  Table name1 name2 (n_a k) (n_b k) (n_c k) (n_d k)
        (n_a k + n_b k + n_c k + n_d k).

(** The line printed when the two inputs differ in length. *)
Definition mismatch_warning (results1 results2 : list jobject) : string :=
  ("warning: result count mismatch: " ++ len_text results1
   ++ " vs " ++ len_text results2)%string.

(** [calculate_mcnemar_values], from the two loaded inputs: each is what
    [load_model_results] returned, the records and the model name. *)
Definition calculate_mcnemar_values
    (loaded1 loaded2 : list jobject * string) : io table :=
  let '(results1, model1_name) := loaded1 in
  let '(results2, model2_name) := loaded2 in
  trimmed ←
    (if bool_decide (length results1 <> length results2) then
       print ("warning: result count mismatch: " ++ len_text results1
              ++ " vs " ++ len_text results2)%string ;;
       let min_len := Z.min (Z.of_nat (length results1))
                            (Z.of_nat (length results2)) in
       io_ret (slice_to results1 min_len, slice_to results2 min_len)
     else io_ret (results1, results2));
  k ← for_each (zip trimmed.1 trimmed.2) loop_body (Counts 0 0 0 0);
  io_ret (Table model1_name model2_name (n_a k) (n_b k) (n_c k) (n_d k)
            (n_a k + n_b k + n_c k + n_d k)).

(** [calculate_mcnemar_statistic(b, c)] *)
Definition calculate_mcnemar_statistic (b c : Z) : Q :=
  if (b + c =? 0)%Z then 0%Q
  else (inject_Z ((Z.abs (b - c) - 1) ^ 2) / inject_Z (b + c))%Q.

Section PValue.
(** [chi2.cdf(x, df=1)] of scipy, which is not part of the repository. *)
Variable chi2_cdf : Q -> Q.

(** [p_value = 1 - chi2.cdf(chi_sq, df=1)] in [main]. *)
Definition p_value (chi_sq : Q) : Q := (1 - chi2_cdf chi_sq)%Q.

(** The test [p_value < 0.05] of [main] and of [append_to_csv]. *)
Definition significant (p : Q) : bool := float_lt p (5 # 100).

(** The verdict line [main] prints. *)
Definition verdict (t : table) (p : Q) : string :=
  if significant p then
    let winner := if (c t <? b t)%Z then model1 t else model2 t in
    ("statistically significant (p<0.05) - " ++ winner ++ " is better")%string
  else "not statistically significant, basically the same"%string.
End PValue.

End Mcnemar.

(* ===================================================================== *)
(** * calculate_b_c.py                                                    *)
(* ===================================================================== *)

Module BC.
Import Py.

(** The loop body: the identity check raises, then the same tally as in
    [calculate_mcnemar.py].  [q.get("question_num")] is [None] for a
    missing key. *)
Definition loop_body (pair : jobject * jobject) (k : Mcnemar.counts)
    : io Mcnemar.counts :=
  let '(q1, q2) := pair in
  (if neqb (get q1 "question_num" JNull) (get q2 "question_num" JNull)
   then raise "ValueError" "question_num mismatch; inputs are not aligned"
   else io_ret tt) ;;
  let m1 := Mcnemar.is_match q1 in
  let m2 := Mcnemar.is_match q2 in
  io_ret (Mcnemar.tally m1 m2 k).

(** [calculate_mcnemar_values], from the two loaded lists and the stems of
    the two file names. *)
Definition calculate_mcnemar_values
    (loaded1 loaded2 : list jobject * string) : io Mcnemar.table :=
  let '(results1, stem1) := loaded1 in
  let '(results2, stem2) := loaded2 in
  (if bool_decide (length results1 <> length results2) then
     raise "ValueError"
       ("result length mismatch: " ++ len_text results1
        ++ " vs " ++ len_text results2)%string
   else io_ret tt) ;;
  k ← for_each (zip results1 results2) loop_body (Mcnemar.Counts 0 0 0 0);
  io_ret (Mcnemar.Table stem1 stem2
            (Mcnemar.n_a k) (Mcnemar.n_b k) (Mcnemar.n_c k) (Mcnemar.n_d k)
            (Mcnemar.n_a k + Mcnemar.n_b k + Mcnemar.n_c k + Mcnemar.n_d k)).

(** [calculate_mcnemar_statistic(b, c)], the same text as in
    [calculate_mcnemar.py]. *)
Definition calculate_mcnemar_statistic (b c : Z) : Q :=
  if (b + c =? 0)%Z then 0%Q
  else (inject_Z ((Z.abs (b - c) - 1) ^ 2) / inject_Z (b + c))%Q.

End BC.

(* ===================================================================== *)
(** * pareto_analysis.py                                                  *)
(* ===================================================================== *)

Module Pareto.
Import Py.

(** One entry of the list [load_log] builds; of its keys the dominance
    test reads [gpu_hours] and [accuracy]. *)
Record run_point : Type := RunPoint {
  model : string;
  gpu_hours : Q;
  accuracy : Q
}.

(** [m2['gpu_hours'] < m1['gpu_hours'] and m2['accuracy'] > m1['accuracy']] *)
Definition dominates (m2 m1 : run_point) : bool :=
  float_lt (gpu_hours m2) (gpu_hours m1) && float_lt (accuracy m1) (accuracy m2).

(** The inner loop [for j, m2 in enumerate(models)], which sets
    [dominated] and leaves at the first point that dominates [m1]. *)
Fixpoint inner_loop (i : nat) (m1 : run_point) (js : list (nat * run_point)) : bool :=
  match js with
  | [] => false
  | (j, m2) :: rest =>
      if negb (i =? j)%nat && dominates m2 m1 then true
      else inner_loop i m1 rest
  end.

(** [is_pareto_optimal(models)] *)
Definition is_pareto_optimal (models : list run_point) : list bool :=
  map (fun '(i, m1) => negb (inner_loop i m1 (enumerate models)))
      (enumerate models).

(** Some other point of the group is strictly cheaper and strictly more
    accurate than [x], the point at index [i]. *)
Definition dominated_in (models : list run_point) (i : nat) (x : run_point) : Prop :=
  exists j y, j <> i /\ models !! j = Some y /\
    (gpu_hours y < gpu_hours x)%Q /\ (accuracy x < accuracy y)%Q.

(** Where the point at index [i] of [delete k models] sits in [models]. *)
Definition lift (k i : nat) : nat := if decide (i < k) then i else S i.

End Pareto.

(* ===================================================================== *)
(** * evaluate.py                                                         *)
(* ===================================================================== *)

Module Evaluate.
Import Py.
Local Open Scope string_scope.

(** ** The regular expression

    The pieces [THINK_REGEX] is made of, matched the way [re] does it: by
    backtracking, the leftmost match first, a starred or optional piece
    taking as much as it can before giving back. *)
Inductive piece : Type :=
| Lit (text : string)        (* the text itself *)
| AnyStar (dotall : bool)    (* [.*]; with DOTALL the dot takes a newline too *)
| Opt (ch : ascii).          (* [c?] *)

Definition newline : ascii := ascii_of_nat 10.

(** [THINK_REGEX = re.compile(r"<think>.*</think>\n?", flags=re.DOTALL)] *)
Definition THINK_REGEX : list piece :=
  [Lit "<think>"; AnyStar true; Lit "</think>"; Opt newline].

(** [s] without the prefix [pre], when it starts with it. *)
Fixpoint strip_prefix (pre s : string) : option string :=
  match pre, s with
  | EmptyString, _ => Some s
  | String a pre', String b s' =>
      if Ascii.eqb a b then strip_prefix pre' s' else None
  | String _ _, EmptyString => None
  end.

(** Does the dot accept this character? *)
Definition dot_accepts (dotall : bool) (ch : ascii) : bool :=
  dotall || negb (Ascii.eqb ch newline).

(** Match the pieces at the start of [s]; the result is the text left
    after the match. *)
Fixpoint match_here (re : list piece) (s : string) : option string :=
  match re with
  | [] => Some s
  | Lit text :: re' =>
      match strip_prefix text s with
      | Some s' => match_here re' s'
      | None => None
      end
  | AnyStar dotall :: re' =>
      (fix star (s : string) : option string :=
         match s with
         | EmptyString => match_here re' EmptyString
         | String ch s' =>
             if dot_accepts dotall ch then
               match star s' with
               | Some rest => Some rest
               | None => match_here re' s
               end
             else match_here re' s
         end) s
  | Opt ch :: re' =>
      match s with
      | String ch' s' =>
          if Ascii.eqb ch ch' then
            match match_here re' s' with
            | Some rest => Some rest
            | None => match_here re' s
            end
          else match_here re' s
      | EmptyString => match_here re' s
      end
  end.

(** The leftmost match in [s]: the text before it, whether it is empty,
    and the text after it. *)
Fixpoint search (re : list piece) (s : string) : option (string * bool * string) :=
  match match_here re s with
  | Some rest => Some (EmptyString, (String.length rest =? String.length s)%nat, rest)
  | None =>
      match s with
      | EmptyString => None
      | String ch s' =>
          match search re s' with
          | Some (before, empty, rest) => Some (String ch before, empty, rest)
          | None => None
          end
      end
  end.

(** The loop of [re.sub]: every match, left to right, is replaced; after
    an empty match one character is copied. *)
Fixpoint sub_loop (fuel : nat) (re : list piece) (repl s : string) : string :=
  match fuel with
  | O => s
  | S fuel' =>
      match search re s with
      | None => s
      | Some (before, false, rest) => before ++ repl ++ sub_loop fuel' re repl rest
      | Some (before, true, EmptyString) => before ++ repl
      | Some (before, true, String ch rest) =>
          before ++ repl ++ String ch (sub_loop fuel' re repl rest)
      end
  end.

(** [re.sub(pattern, repl, s)]; each round of the loop consumes a
    character or stops, so the length of [s] plus one is fuel enough. *)
Definition re_sub (re : list piece) (repl s : string) : string :=
  sub_loop (S (String.length s)) re repl s.

(** [pat in s]: the text [pat] occurs somewhere in [s]. *)
Fixpoint occurs (pat s : string) : bool :=
  match strip_prefix pat s with
  | Some _ => true
  | None =>
      match s with
      | EmptyString => false
      | String _ s' => occurs pat s'
      end
  end.

(** Some ["<think>"] in [s] has a ["</think>"] after it. *)
Fixpoint has_span (s : string) : bool :=
  match s with
  | EmptyString => false
  | String _ s' =>
      match strip_prefix "<think>" s with
      | Some inner => occurs "</think>" inner || has_span s'
      | None => has_span s'
      end
  end.

(** [s] without one newline at its start. *)
Definition drop_newline (s : string) : string :=
  match s with
  | String ch s' => if Ascii.eqb newline ch then s' else s
  | EmptyString => s
  end.

(** ** The runner *)

Record EvalConfig : Type := {
  model : string;
  lang : string;
  num_q : Z;
  qa_path : string;
  out_dir : string;
  ollama_host : string;
  max_retries : Z;
  retry_sleep_s : Q;
  strip_think : bool
}.

(** One entry of [qa_results]. *)
Record qa_result : Type := QaResult {
  question_num : Z;
  question : string;
  model_ans : string;
  correct_ans : string
}.

(** [_load_pairs], once the file is read: [pairs[:num_q]]. *)
Definition _load_pairs (qa_pairs : list jobject) (num_q : Z) : list jobject :=
  slice_to qa_pairs num_q.

(** [c.lower()] on the ASCII range, and [s.lower()]. *)
Definition lower_char (c : ascii) : ascii :=
  let n := nat_of_ascii c in
  if ((65 <=? n) && (n <=? 90))%nat then ascii_of_nat (n + 32) else c.

Fixpoint lower (s : string) : string :=
  match s with
  | EmptyString => EmptyString
  | String c s' => String (lower_char c) (lower s')
  end.

(** [_get_system_prompt]; the Norwegian prompt is kept as a name, its text
    has letters outside ASCII. *)
Definition _get_system_prompt (norwegian_prompt : string) (lang : string) : string :=
  let is_no := bool_decide (is_Some (strip_prefix "no" (lower lang))) in
  if is_no then norwegian_prompt
  else "You are an expert in answering history quizzes using only knowledge from up to 1940. "
       ++ "Answer in one or two sentences, using only knowledge up to 1940.".

(** The two branches after a successful call:
    [re.sub(THINK_REGEX, "", str(ans)).strip()] or [str(ans).strip()]. *)
Definition clean_answer (strip_think : bool) (ans : string) : string :=
  if strip_think then strip (re_sub THINK_REGEX "" ans)
  else strip ans.

(** [time.sleep(secs)] turns the length into a signed count of nanoseconds
    on 64 bits, and raises [OverflowError] when it does not fit; then it
    raises [ValueError] on a negative length.  The product is exact here, as
    every float is; the text of the first message is that of CPython up to
    3.12. *)
Definition sleep (secs : Q) : io unit :=
  let ns := (secs * inject_Z (10 ^ 9))%Q in
  if float_lt ns (- inject_Z (2 ^ 63)) || negb (float_lt ns (inject_Z (2 ^ 63)))
  then raise "OverflowError" "timestamp too large to convert to C _PyTime_t"
  else if float_lt secs 0
       then raise "ValueError" "sleep length must be non-negative"
       else mret tt.

(** The built-in classes that derive from [BaseException] and not from
    [Exception]: an [except Exception] clause lets them pass.  Every other
    class a call of the client raises (its own [ResponseError], the errors
    of the network layer, the built-in errors) derives from [Exception]. *)
Definition NOT_EXCEPTION : list string :=
  ["BaseException"; "BaseExceptionGroup"; "GeneratorExit"; "KeyboardInterrupt";
   "SystemExit"].

(** Does [except Exception] catch an exception of the class [cls]? *)
Definition is_Exception (cls : string) : bool :=
  negb (bool_decide (cls ∈ NOT_EXCEPTION)).

(** A length [time.sleep] takes without raising: not negative, and below
    [2^63] nanoseconds. *)
Definition sleep_accepts (secs : Q) : Prop :=
  (0 <= secs)%Q /\ (secs * inject_Z (10 ^ 9) < inject_Z (2 ^ 63))%Q.

(** A negative length that still fits the 64 bits, for which [time.sleep]
    raises [ValueError]. *)
Definition sleep_refuses (secs : Q) : Prop :=
  (secs < 0)%Q /\ (- inject_Z (2 ^ 63) <= secs * inject_Z (10 ^ 9))%Q.

(** What [client.chat] is asked. *)
Record request : Type := Request {
  req_model : string;
  req_system : string;
  req_user : string
}.

Section Run.
(** The backend is not part of the program.  The run is sequential and
    makes its calls one at a time, so a call is known by the index of its
    question and the number of the attempt: [backend idx attempt req] is
    what [client.chat(...)["message"]["content"]] does there, the text
    or the exception the [try] block sees. *)
Variable backend : nat -> Z -> request -> outcome string.

(** [str(datetime.now())] when the progress line of a question is
    printed. *)
Variable now : nat -> string.

Variable norwegian_prompt : string.

(** The loop [for attempt in range(1, config.max_retries + 1)] with its
    [else] clause, over the attempts still to make.  The handler is that of
    [except Exception]: an exception of another class leaves the loop and
    the run. *)
Fixpoint attempt_loop (config : EvalConfig) (idx : nat) (req : request)
    (todo : list Z) (last_exc : option string) : io string :=
  match todo with
  | [] =>
      mret (match last_exc with
            | Some exc => "ERROR: " ++ exc
            | None => "ERROR"
            end)
  | attempt :: todo' =>
      match backend idx attempt req with
      | Return ans => mret (clean_answer (strip_think config) ans)
      | Raise cls exc =>
          if is_Exception cls then
            print ("error on question " ++ str (JInt (Z.of_nat idx))
                   ++ ", attempt " ++ str (JInt attempt) ++ "/"
                   ++ str (JInt (max_retries config)) ++ ": " ++ exc) ;;
            (if (attempt <? max_retries config)%Z
             then sleep (retry_sleep_s config) else mret tt) ;;
            attempt_loop config idx req todo' (Some exc)
          else raise cls exc
      end
  end.

(** Every failure of the backend is an exception that [except Exception]
    catches, as a network, time-out or protocol error is. *)
Definition failures_are_exceptions : Prop :=
  forall idx attempt req cls exc,
    backend idx attempt req = Raise cls exc -> is_Exception cls = true.

(** The answer the loop settles on when it returns: the cleaned text of the
    first attempt that succeeds, or the sentinel. *)
Fixpoint settled_answer (config : EvalConfig) (idx : nat) (req : request)
    (todo : list Z) (last_exc : option string) : string :=
  match todo with
  | [] =>
      match last_exc with
      | Some exc => "ERROR: " ++ exc
      | None => "ERROR"
      end
  | attempt :: todo' =>
      match backend idx attempt req with
      | Return ans => clean_answer (strip_think config) ans
      | Raise _ exc => settled_answer config idx req todo' (Some exc)
      end
  end.

(** The body of [for idx, pair in enumerate(pairs)]; [pair] is [qa]
    here. *)
Definition question_body (config : EvalConfig) (system_prompt : string)
    (item : nat * jobject) (qa_results : list qa_result) : io (list qa_result) :=
  let '(idx, qa) := item in
  let question := str (get qa "question" (JStr "")) in
  let ref_answer := str (get qa "answer" (JStr "")) in
  ans ← attempt_loop config idx
          (Request (model config) system_prompt question)
          (range 1 (max_retries config + 1)) None;
  (if ((Z.of_nat idx + 1) mod 25 =? 0)%Z || (idx =? 0)%nat
   then print ("evaluating question " ++ str (JInt (Z.of_nat idx))
               ++ " time: " ++ now idx)
   else mret tt) ;;
  mret (qa_results ++ [QaResult (Z.of_nat idx) question ans ref_answer])%list.

(** What [client.chat] is asked for the question [qa]. *)
Definition request_for (config : EvalConfig) (qa : jobject) : request :=
  Request (model config) (_get_system_prompt norwegian_prompt (lang config))
          (str (get qa "question" (JStr ""))).

(** The entry appended for the question [qa] at index [idx]. *)
Definition record_of (config : EvalConfig) (item : nat * jobject) : qa_result :=
  let '(idx, qa) := item in
  QaResult (Z.of_nat idx)
    (str (get qa "question" (JStr "")))
    (settled_answer config idx (request_for config qa)
       (range 1 (max_retries config + 1)) None)
    (str (get qa "answer" (JStr ""))).

(** [run_eval], from the list read under ["qa_pairs"] to the list
    [qa_results] it returns.  The output directory and the client made
    before the loop, and the log record built after it from the clock and
    the environment, have no part in [qa_results] and are left out. *)
Definition run_eval (config : EvalConfig) (qa_pairs : list jobject)
    : io (list qa_result) :=
  let pairs := _load_pairs qa_pairs (num_q config) in
  let system_prompt := _get_system_prompt norwegian_prompt (lang config) in
  print ("starting eval: model=" ++ model config ++ " lang=" ++ lang config
         ++ " num_q=" ++ len_text pairs) ;;
  for_each (enumerate pairs) (question_body config system_prompt) [].
End Run.

End Evaluate.

(* ===================================================================== *)
(** * Inputs the theorems are run on                                      *)
(* ===================================================================== *)

Module Sample.
Import Py.

(** A distribution function: [x / (1 + x)] is [0] at [0] and grows towards
    [1]. *)
Definition sample_cdf (x : Q) : Q := (x / (1 + x))%Q.

(** A graded record with both keys. *)
Definition graded (num : Z) (grade : string) : jobject :=
  <["question_num" := JInt num]> (<["grade" := JStr grade]> ∅).


(** A question of the benchmark file. *)
Definition qa_pair (question answer : string) : jobject :=
  <["question" := JStr question]> (<["answer" := JStr answer]> ∅).

Definition sample_pairs : list jobject :=
  [qa_pair "q0" "a0"; qa_pair "q1" "a1"; qa_pair "q2" "a2"; qa_pair "q3" "a3"].

(** Three questions are taken, two attempts are allowed, the span is not
    removed. *)
Definition sample_config : Evaluate.EvalConfig :=
  {| Evaluate.model := "m"; Evaluate.lang := "en"; Evaluate.num_q := 3;
     Evaluate.qa_path := "qa_pairs.json"; Evaluate.out_dir := "results";
     Evaluate.ollama_host := "http://localhost:11434";
     Evaluate.max_retries := 2; Evaluate.retry_sleep_s := 10;
     Evaluate.strip_think := false |}.

(** A backend that answers question 0 at once, question 1 on the second
    attempt, and never answers the others. *)
Definition sample_backend (idx : nat) (attempt : Z) (req : Evaluate.request)
    : outcome string :=
  match idx with
  | 0 => Return " Paris "%string
  | 1 => if (attempt =? 2)%Z then Return " <think>hm</think> Oslo "%string
         else Raise "ConnectionError" "refused"
  | _ => Raise "TimeoutError" ("timed out " ++ str (JInt attempt))%string
  end.

Definition sample_now (idx : nat) : string := "2025-01-01 00:00:00"%string.

(** The same run with a negative delay between attempts. *)
Definition hasty_config : Evaluate.EvalConfig :=
  {| Evaluate.model := "m"; Evaluate.lang := "en"; Evaluate.num_q := 3;
     Evaluate.qa_path := "qa_pairs.json"; Evaluate.out_dir := "results";
     Evaluate.ollama_host := "http://localhost:11434";
     Evaluate.max_retries := 2; Evaluate.retry_sleep_s := - (1);
     Evaluate.strip_think := false |}.

End Sample.

(* ===================================================================== *)
(** * The vocabulary of the statements                                    *)
(* ===================================================================== *)

Module Stated.
Import Py.

(** Both files give a comparator of this shape. *)
Definition comparator : Type :=
  list jobject * string -> list jobject * string -> io Mcnemar.table.

(** The computation stops with an exception of the class [cls]. *)
Definition fails_with {A} (cls : string) (m : io A) : Prop :=
  exists msg out, run m = (Raise cls msg, out).

(** The comparison goes through, prints something, and its record is the
    one the comparator gives on the two inputs cut to the shorter length. *)
Definition truncates_with_warning (cmp : comparator)
    (loaded1 loaded2 : list jobject * string) : Prop :=
  let n := Nat.min (length loaded1.1) (length loaded2.1) in
  exists t out,
    run (cmp loaded1 loaded2) = (Return t, out) /\ out <> [] /\
    (run (cmp (take n loaded1.1, loaded1.2) (take n loaded2.1, loaded2.2))).1
    = Return t.

(** The reading of the rule in which one span is removed, the first, and
    ends at the first end marker after its start marker. *)
Fixpoint cut_at_first_end (s : string) : option string :=
  match Evaluate.strip_prefix "</think>" s with
  | Some rest => Some rest
  | None =>
      match s with
      | EmptyString => None
      | String _ s' => cut_at_first_end s'
      end
  end.

Fixpoint remove_first_span (s : string) : string :=
  match s with
  | EmptyString => EmptyString
  | String ch s' =>
      match Evaluate.strip_prefix "<think>" s with
      | Some inner =>
          match cut_at_first_end inner with
          | Some rest => rest
          | None => s
          end
      | None => String ch (remove_first_span s')
      end
  end.

Definition strip_first_span_nongreedy (s : string) : string :=
  strip (remove_first_span s).

End Stated.

(* ===================================================================== *)
(** * The vocabulary of the further statements                            *)
(* ===================================================================== *)

Module Further.
Import Py.

(** The records at one index of the two inputs carry the same
    [question_num], a missing one being [None]. *)
Definition same_question (q1 q2 : jobject) : bool :=
  eqb (get q1 "question_num" JNull) (get q2 "question_num" JNull).

(** The table of the comparison made the other way round: the names and
    the two discordant counts change places. *)
Definition swap_table (t : Mcnemar.table) : Mcnemar.table :=
  Mcnemar.Table (Mcnemar.model2 t) (Mcnemar.model1 t)
    (Mcnemar.a t) (Mcnemar.c t) (Mcnemar.b t) (Mcnemar.d t) (Mcnemar.total t).

Definition swap_counts (k : Mcnemar.counts) : Mcnemar.counts :=
  Mcnemar.Counts (Mcnemar.n_a k) (Mcnemar.n_c k) (Mcnemar.n_b k) (Mcnemar.n_d k).

(** Every character of the text passes the test. *)
Fixpoint all_chars (test : ascii -> bool) (s : string) : bool :=
  match s with
  | EmptyString => true
  | String ch s' => test ch && all_chars test s'
  end.

(** The [grade] entries of a result list, in order. *)
Definition grades (results : list jobject) : list (option jvalue) :=
  map (fun q => q !! "grade") results.

End Further.

(* ===================================================================== *)
(** * find_false_questions.py                                             *)
(* ===================================================================== *)

Module FindFalse.
Import Py.

(** [str(item.get(args.grade_key, "")).strip().upper()] *)
Definition grade_of (grade_key : string) (item : jobject) : string :=
  upper (strip (str (get item grade_key (JStr "")))).

(** The loop of [main] that collects the items whose grade is not ["T"]. *)
Definition collect_incorrect (grade_key : string) (raw : list jobject) : list jobject :=
  fold_left
    (fun incorrect item =>
       if bool_decide (grade_of grade_key item <> "T"%string)
       then (incorrect ++ [item])%list else incorrect)
    raw [].

(** The line [main] prints after writing the items to [output]. *)
Definition report (grade_key : string) (raw : list jobject) (output : string) : string :=
  ("wrote " ++ len_text (collect_incorrect grade_key raw)
   ++ " incorrect items to " ++ output)%string.

End FindFalse.

(* ===================================================================== *)
(** * More Python built-ins on text                                       *)
(* ===================================================================== *)

Module PyText.
Import Py.
Local Open Scope string_scope.

(** The first [n] characters of [s], and [s] without them. *)
Fixpoint str_take (n : nat) (s : string) : string :=
  match n, s with
  | S n', String ch s' => String ch (str_take n' s')
  | _, _ => EmptyString
  end.

Fixpoint str_drop (n : nat) (s : string) : string :=
  match n, s with
  | S n', String _ s' => str_drop n' s'
  | _, _ => s
  end.

(** [s[:k]] and [s[k:]]: a negative [k] counts from the end. *)
Definition slice_until (s : string) (k : Z) : string :=
  if (k <? 0)%Z then str_take (String.length s - Z.to_nat (- k)) s
  else str_take (Z.to_nat k) s.

Definition slice_from (s : string) (k : Z) : string :=
  if (k <? 0)%Z then str_drop (String.length s - Z.to_nat (- k)) s
  else str_drop (Z.to_nat k) s.

(** [s.rfind(c)] for a needle of one character: the index of its last
    occurrence, or [-1]. *)
Fixpoint rfind (c : ascii) (s : string) : Z :=
  match s with
  | EmptyString => -1
  | String ch s' =>
      let later := rfind c s' in
      if (later <? 0)%Z then (if Ascii.eqb ch c then 0 else -1)%Z
      else (later + 1)%Z
  end.

(** [c in s] for a needle of one character. *)
Fixpoint has_char (c : ascii) (s : string) : bool :=
  match s with
  | EmptyString => false
  | String ch s' => Ascii.eqb ch c || has_char c s'
  end.

(** [s.endswith(suffix)] *)
Definition endswith (s suffix : string) : bool :=
  (String.length suffix <=? String.length s)%nat
  && String.eqb (str_drop (String.length s - String.length suffix) s) suffix.

(** [s.split()]: the maximal runs of characters that are not white space.
    [word] is the run being read. *)
Fixpoint split_from (word : string) (s : string) : list string :=
  match s with
  | EmptyString => if String.eqb word "" then [] else [word]
  | String ch s' =>
      if isspace ch then
        (if String.eqb word "" then split_from "" s'
         else word :: split_from "" s')
      else split_from (word ++ String ch "") s'
  end.

Definition split (s : string) : list string := split_from "" s.

(** [s.rsplit(sep, 1)[0]] for a separator of one character: what stands
    before the last separator, or all of [s] when there is none. *)
Definition rsplit_head (sep : ascii) (s : string) : string :=
  let index := rfind sep s in
  if (index <? 0)%Z then s else slice_until s index.

End PyText.

(* ===================================================================== *)
(** * evaluate.py: names                                                  *)
(* ===================================================================== *)

Module EvaluateNames.
Import Py PyText.
Local Open Scope string_scope.

(** [_pick_model(explicit_model, models_str)]; [explicit_model] is [None]
    when neither the option nor the variable is set. *)
Definition _pick_model (explicit_model : option string) (models_str : string)
    : outcome string :=
  match explicit_model with
  | Some (String ch rest) => Return (String ch rest)
  | _ =>
      let models := List.filter (fun m => negb (String.eqb m "")) (split models_str) in
      match models with
      | first :: _ => Return first
      | [] => Raise "SystemExit"
                "No model specified. Provide --model or set MODEL (or MODELS)."
      end
  end.

(** [_sanitize_filename_component(name)]: [name[name.rfind("/") + 1 :]] *)
Definition _sanitize_filename_component (name : string) : string :=
  slice_from name (rfind "/" name + 1).

End EvaluateNames.

(* ===================================================================== *)
(** * The language suffix of a file name                                  *)
(* ===================================================================== *)

Module Names.
Import Py PyText.
Local Open Scope string_scope.

(** The two tuples the loops of [split_model_lang], of [load_log] and of
    [_has_lang_suffix] go through. *)
Definition LANGS : list string := ["en"; "no"].
Definition SEPS : list string := ["_"; "-"; ":"].

(** The inner loop [for sep in ("_", "-", ":")] of [split_model_lang] in
    [graph_families.py] and [generate_graph.py], which returns at the first
    suffix that fits. *)
Fixpoint split_with (stem lang : string) (seps : list string) : option (string * string) :=
  match seps with
  | [] => None
  | sep :: seps' =>
      let suffix := sep ++ lang in
      if endswith stem suffix && (String.length suffix <? String.length stem)%nat
      then Some (slice_until stem (- Z.of_nat (String.length suffix)), lang)
      else split_with stem lang seps'
  end.

Fixpoint split_over (stem : string) (langs : list string) : option (string * string) :=
  match langs with
  | [] => None
  | lang :: langs' =>
      match split_with stem lang SEPS with
      | Some parsed => Some parsed
      | None => split_over stem langs'
      end
  end.

(** [split_model_lang(stem)] *)
Definition split_model_lang (stem : string) : option (string * string) :=
  split_over stem LANGS.

(** The loops of [load_log] in [pareto_analysis.py] that set [model_base]:
    the inner one leaves with [break] once it has set it, and the [else] of
    the inner loop lets the outer one go on. *)
Fixpoint base_with (stem lang : string) (seps : list string) : option string :=
  match seps with
  | [] => None
  | sep :: seps' =>
      let suffix := sep ++ lang in
      if endswith stem suffix && (String.length suffix <? String.length stem)%nat
      then Some (slice_until stem (- Z.of_nat (String.length suffix)))
      else base_with stem lang seps'
  end.

Fixpoint base_over (stem : string) (langs : list string) (model_base : string) : string :=
  match langs with
  | [] => model_base
  | lang :: langs' =>
      match base_with stem lang SEPS with
      | Some found => found
      | None => base_over stem langs' model_base
      end
  end.

Definition model_base_of (stem : string) : string := base_over stem LANGS stem.

(** [_has_lang_suffix(name, lang)] in [main] of [pareto_analysis.py]:
    [any(name.endswith(f"{sep}{lang}") for sep in ("_", "-", ":"))] *)
Definition _has_lang_suffix (name lang : string) : bool :=
  existsb (fun sep => endswith name (sep ++ lang)) SEPS.

(** The keys of [FAMILY_COLORS], in the order of the table. *)
Definition FAMILY_KEYS : list string :=
  ["deepseek"; "llama"; "qwen"; "gemma"; "magistral"; "norwai"; "mimir";
   "gpt-oss"; "qwq"].

(** The loop of [get_model_family] over the keys still to try. *)
Fixpoint first_family (families : list string) (name_lower : string) : string :=
  match families with
  | [] => "other"
  | family :: families' =>
      if Evaluate.occurs family name_lower then family
      else first_family families' name_lower
  end.

(** [get_model_family(model_name)] *)
Definition get_model_family (model_name : string) : string :=
  first_family FAMILY_KEYS (Evaluate.lower model_name).

(** The new name [main] of [sanitize_names.py] computes for a file, or
    [None] where the loop goes on to the next file: no hyphen in the name,
    or a new name equal to the old. *)
Definition new_name_of (name : string) : option string :=
  let index := rfind "-" name in
  if (index =? -1)%Z then None
  else
    let new_name := slice_until name index ++ "_" ++ slice_from name (index + 1) in
    if String.eqb new_name name then None else Some new_name.

End Names.

(* ===================================================================== *)
(** * add_gpu_count.py                                                    *)
(* ===================================================================== *)

Module AddGpuCount.
Import Py PyText.
Local Open Scope string_scope.

(** [GPU_COUNTS] *)
Definition GPU_COUNTS : gmap string Z :=
  <["deepseek-r1:671b" := 3%Z]> (<["llama3.1:405b" := 4%Z]>
  (<["qwen2.5:230b" := 2%Z]> (<["qwen3:235b" := 2%Z]>
  (<["gpt-oss:120b" := 2%Z]> ∅)))).

(** [int(GPU_COUNTS.get(log_file.stem.rsplit("_", 1)[0], default_num_gpus))] *)
Definition num_gpus_for (stem : string) (default_num_gpus : Z) : Z :=
  default default_num_gpus (GPU_COUNTS !! rsplit_head "_" stem).

Section Backfill.
(** The values of a log record, whatever they are, and how an integer is
    stored among them. *)
Context {V : Type} (of_int : Z -> V).

(** What [update_log_files] does with one parsed record: [None] where it
    goes on to the next file because the key is there, the record to write
    otherwise. *)
Definition backfill (stem : string) (data : gmap string V) (default_num_gpus : Z)
    : option (gmap string V) :=
  match data !! "num_gpus" with
  | Some _ => None
  | None => Some (<["num_gpus" := of_int (num_gpus_for stem default_num_gpus)]> data)
  end.
End Backfill.

End AddGpuCount.

(* ===================================================================== *)
(** * The McNemar statistic                                               *)
(* ===================================================================== *)

Section Statistic.
Import Py Mcnemar.

Lemma float_lt_spec (x y : Q) : float_lt x y = true <-> (x < y)%Q.
Proof.
  unfold float_lt. rewrite negb_true_iff, <- not_true_iff_false, Qle_bool_iff.
  split; [apply Qnot_le_lt | apply Qlt_not_le].
Qed.

Lemma float_lt_false (x y : Q) : float_lt x y = false <-> (y <= x)%Q.
Proof.
  unfold float_lt. rewrite negb_false_iff. apply Qle_bool_iff.
Qed.

(** The integer computation of the code, read in the rationals. *)
Lemma statistic_in_Q (b c : Z) :
  (inject_Z ((Z.abs (b - c) - 1) ^ 2)
   == (Qabs (inject_Z b - inject_Z c) - 1) ^ 2)%Q.
Proof.
  assert (Hsub : (inject_Z b - inject_Z c == inject_Z (b - c))%Q).
  { unfold Qminus. rewrite <- inject_Z_opp, <- inject_Z_plus. reflexivity. }
  rewrite Hsub.
  change (Qabs (inject_Z (b - c))) with (inject_Z (Z.abs (b - c))).
  change 1%Q with (inject_Z 1).
  unfold Qminus. rewrite <- inject_Z_opp, <- inject_Z_plus.
  change ((Z.abs (b - c) - 1) ^ 2)%Z with (Z.pow_pos (Z.abs (b - c) - 1) 2).
  simpl Qpower. unfold Qpower_positive. simpl pow_pos.
  rewrite <- inject_Z_mult.
  replace (Z.pow_pos (Z.abs (b - c) - 1) 2)
    with ((Z.abs (b - c) + - (1)) * (Z.abs (b - c) + - (1)))%Z; [reflexivity|].
  change (Z.pow_pos (Z.abs (b - c) - 1) 2) with ((Z.abs (b - c) - 1) ^ 2)%Z.
  lia.
Qed.

(** The two files carry the same function. *)
Lemma statistic_same_in_both_files (b c : Z) :
  BC.calculate_mcnemar_statistic b c = calculate_mcnemar_statistic b c.
Proof. reflexivity. Qed.

(** C1.  For non-negative [b] and [c] the statistic is [0] when
    [b + c = 0] and [(|b - c| - 1)^2 / (b + c)] otherwise, in both files;
    when [b = c = 0] the statistic is [0], the p-value [1 - cdf(0)] is [1]
    (the chi-squared distribution function is [0] at [0]) and the
    comparison is reported as not significant. *)
Theorem mcnemar_statistic_formula (chi2_cdf : Q -> Q) (b c : Z) :
  (chi2_cdf 0 == 0)%Q ->
  (0 <= b)%Z -> (0 <= c)%Z ->
  ((b + c = 0)%Z -> calculate_mcnemar_statistic b c = 0%Q) /\
  ((b + c <> 0)%Z ->
     (calculate_mcnemar_statistic b c
      == (Qabs (inject_Z b - inject_Z c) - 1) ^ 2 / (inject_Z b + inject_Z c))%Q) /\
  BC.calculate_mcnemar_statistic b c = calculate_mcnemar_statistic b c /\
  (b = 0%Z -> c = 0%Z ->
     forall t : table,
       calculate_mcnemar_statistic b c = 0%Q /\
       (p_value chi2_cdf (calculate_mcnemar_statistic b c) == 1)%Q /\
       significant (p_value chi2_cdf (calculate_mcnemar_statistic b c)) = false /\
       verdict t (p_value chi2_cdf (calculate_mcnemar_statistic b c))
       = "not statistically significant, basically the same"%string).
Proof.
  intros Hcdf Hb Hc. repeat split.
  - intros Hz. unfold calculate_mcnemar_statistic.
    apply Z.eqb_eq in Hz. rewrite Hz. reflexivity.
  - intros Hnz. unfold calculate_mcnemar_statistic.
    apply Z.eqb_neq in Hnz. rewrite Hnz.
    rewrite statistic_in_Q, inject_Z_plus. reflexivity.
  - subst. reflexivity.
  - subst. change (calculate_mcnemar_statistic 0 0) with 0%Q.
    unfold p_value. rewrite Hcdf. reflexivity.
  - subst. change (calculate_mcnemar_statistic 0 0) with 0%Q.
    apply float_lt_false. unfold p_value. rewrite Hcdf. discriminate.
  - subst. change (calculate_mcnemar_statistic 0 0) with 0%Q.
    unfold verdict, significant.
    replace (float_lt (p_value chi2_cdf 0%Q) (5 # 100)%Q) with false; [reflexivity|].
    symmetry. apply float_lt_false. unfold p_value. rewrite Hcdf. discriminate.
Qed.

Lemma mcnemar_statistic_formula_witness :
  (Sample.sample_cdf 0 == 0)%Q /\ (0 <= 0)%Z /\
  (p_value Sample.sample_cdf (calculate_mcnemar_statistic 0 0) == 1)%Q /\
  (calculate_mcnemar_statistic 10 2 == 49 # 12)%Q.
Proof.
  assert (H0 : (Sample.sample_cdf 0 == 0)%Q) by reflexivity.
  split; [exact H0|]. split; [lia|]. split.
  - destruct (mcnemar_statistic_formula Sample.sample_cdf 0 0 H0 ltac:(lia) ltac:(lia))
      as (_ & _ & _ & Hedge).
    destruct (Hedge eq_refl eq_refl (Table "" "" 0 0 0 0 0)) as (_ & Hp & _).
    exact Hp.
  - destruct (mcnemar_statistic_formula Sample.sample_cdf 10 2 H0 ltac:(lia) ltac:(lia))
      as (_ & Hformula & _).
    rewrite (Hformula ltac:(lia)). reflexivity.
Defined.

End Statistic.

(* ===================================================================== *)
(** * The two comparators                                                 *)
(* ===================================================================== *)

Section Comparator.
Import Py Mcnemar.

Lemma tally_sum m1 m2 k : count_sum (tally m1 m2 k) = (count_sum k + 1)%Z.
Proof. unfold count_sum. destruct m1, m2; simpl; lia. Qed.

Lemma tally_nonneg m1 m2 k : counts_nonneg k -> counts_nonneg (tally m1 m2 k).
Proof. unfold counts_nonneg. destruct m1, m2; simpl; lia. Qed.

Lemma tally_from_sum pairs : forall k,
  count_sum (tally_from k pairs) = (count_sum k + Z.of_nat (length pairs))%Z.
Proof.
  induction pairs as [|[q1 q2] pairs IH]; intros k; simpl.
  - lia.
  - unfold tally_from in *. simpl. rewrite IH, tally_sum. lia.
Qed.

Lemma tally_from_nonneg pairs : forall k,
  counts_nonneg k -> counts_nonneg (tally_from k pairs).
Proof.
  induction pairs as [|[q1 q2] pairs IH]; intros k Hk; simpl; [exact Hk|].
  apply IH, tally_nonneg, Hk.
Qed.

Lemma zip_length {A B} (xs : list A) : forall ys : list B,
  length (zip xs ys) = Nat.min (length xs) (length ys).
Proof.
  induction xs as [|x xs IH]; intros [|y ys]; simpl; auto.
Qed.

Lemma zip_take {A B} (xs : list A) : forall (ys : list B) n,
  n = Nat.min (length xs) (length ys) ->
  zip (take n xs) (take n ys) = zip xs ys.
Proof.
  induction xs as [|x xs IH]; intros [|y ys] n Hn; simpl in *; subst; simpl;
    try reflexivity.
  f_equal. apply IH. reflexivity.
Qed.

Lemma slice_to_min {A} (xs : list A) (n m : nat) :
  slice_to xs (Z.min (Z.of_nat n) (Z.of_nat m)) = take (Nat.min n m) xs.
Proof.
  unfold slice_to. rewrite <- Nat2Z.inj_min.
  destruct (Z.ltb_spec (Z.of_nat (Nat.min n m)) 0) as [Hneg|_]; [lia|].
  rewrite Nat2Z.id. reflexivity.
Qed.

(** An iteration of the loop of [calculate_mcnemar.py] neither prints nor
    raises, whatever the two records hold. *)
Lemma mcnemar_loop_body_run q1 q2 k out :
  Mcnemar.loop_body (q1, q2) k out
  = (Return (tally (is_match q1) (is_match q2) k), out).
Proof.
  unfold Mcnemar.loop_body, mbind, io_mbind, io_bind.
  destruct (contains q1 "question_num" && contains q2 "question_num");
    [destruct (neqb _ _)|]; reflexivity.
Qed.

Lemma mcnemar_loop_run pairs : forall k out,
  for_each pairs Mcnemar.loop_body k out = (Return (tally_from k pairs), out).
Proof.
  induction pairs as [|[q1 q2] pairs IH]; intros k out; cbn [for_each];
    [reflexivity|].
  unfold io_bind. rewrite mcnemar_loop_body_run. apply IH.
Qed.

(** The whole of [calculate_mcnemar_values]: the counters are the tally of
    the zipped inputs, and the one line that can be printed is the length
    warning. *)
Lemma mcnemar_values_run r1 name1 r2 name2 out :
  Mcnemar.calculate_mcnemar_values (r1, name1) (r2, name2) out
  = (Return (table_of name1 name2 (tally_from (Counts 0 0 0 0) (zip r1 r2))),
     if bool_decide (length r1 <> length r2)
     then (out ++ [mismatch_warning r1 r2])%list else out).
Proof.
  unfold Mcnemar.calculate_mcnemar_values, mbind, io_mbind, io_bind.
  case_bool_decide as Hlen; simpl.
  - rewrite !slice_to_min, zip_take by reflexivity.
    rewrite mcnemar_loop_run. reflexivity.
  - rewrite mcnemar_loop_run. reflexivity.
Qed.

(** An iteration of the loop of [calculate_b_c.py] that returns has not
    printed and has tallied the pair. *)
Lemma bc_loop_body_run q1 q2 k out :
  BC.loop_body (q1, q2) k out
  = if neqb (get q1 "question_num" JNull) (get q2 "question_num" JNull)
    then (Raise "ValueError" "question_num mismatch; inputs are not aligned", out)
    else (Return (tally (is_match q1) (is_match q2) k), out).
Proof.
  unfold BC.loop_body, mbind, io_mbind, io_bind.
  destruct (neqb _ _); reflexivity.
Qed.

Lemma bc_loop_returns pairs : forall k out k' out',
  for_each pairs BC.loop_body k out = (Return k', out') ->
  k' = tally_from k pairs /\ out' = out.
Proof.
  induction pairs as [|[q1 q2] pairs IH]; intros k out k' out' Hrun;
    cbn [for_each] in Hrun.
  - inversion Hrun. auto.
  - unfold io_bind in Hrun. rewrite bc_loop_body_run in Hrun.
    destruct (neqb _ _); [discriminate|]. apply IH in Hrun. exact Hrun.
Qed.

Lemma bc_values_returns r1 name1 r2 name2 out t out' :
  BC.calculate_mcnemar_values (r1, name1) (r2, name2) out = (Return t, out') ->
  length r1 = length r2 /\
  t = table_of name1 name2 (tally_from (Counts 0 0 0 0) (zip r1 r2)) /\
  out' = out.
Proof.
  unfold BC.calculate_mcnemar_values, mbind, io_mbind, io_bind.
  case_bool_decide as Hlen; simpl; [discriminate|].
  destruct (for_each _ _ _ out) as [[k|cls msg] out1] eqn:Hloop; [|discriminate].
  intros Heq. inversion Heq; subst. apply bc_loop_returns in Hloop as [-> ->].
  split; [|split]; [|reflexivity..].
  destruct (decide (length r1 = length r2)); [assumption|contradiction].
Qed.

(** C8.  The four counts add up to the length of the shorter input and none
    is negative: always in [calculate_mcnemar.py], which always returns a
    record, and in [calculate_b_c.py] whenever it returns one. *)
Theorem contingency_counts_total (r1 r2 : list jobject) (name1 name2 : string) :
  let shorter := Z.of_nat (Nat.min (length r1) (length r2)) in
  (exists t out,
     run (Mcnemar.calculate_mcnemar_values (r1, name1) (r2, name2)) = (Return t, out) /\
     (a t + b t + c t + d t = shorter)%Z /\ total t = shorter /\
     (0 <= a t)%Z /\ (0 <= b t)%Z /\ (0 <= c t)%Z /\ (0 <= d t)%Z) /\
  (forall t out,
     run (BC.calculate_mcnemar_values (r1, name1) (r2, name2)) = (Return t, out) ->
     (a t + b t + c t + d t = shorter)%Z /\ total t = shorter /\
     (0 <= a t)%Z /\ (0 <= b t)%Z /\ (0 <= c t)%Z /\ (0 <= d t)%Z).
Proof.
  intros shorter.
  pose proof (tally_from_sum (zip r1 r2) (Counts 0 0 0 0)) as Hsum.
  pose proof (tally_from_nonneg (zip r1 r2) (Counts 0 0 0 0)) as Hpos.
  rewrite zip_length in Hsum. unfold count_sum in Hsum. simpl in Hsum.
  unfold counts_nonneg in Hpos. simpl in Hpos.
  specialize (Hpos ltac:(lia)).
  split.
  - eexists _, _. unfold run. rewrite mcnemar_values_run.
    split; [reflexivity|]. simpl. subst shorter. lia.
  - intros t out Hrun. unfold run in Hrun.
    apply bc_values_returns in Hrun as (_ & -> & _).
    simpl. subst shorter. lia.
Qed.

Lemma contingency_counts_total_witness :
  run (BC.calculate_mcnemar_values
         ([Sample.graded 0 "T"; Sample.graded 1 "t"; Sample.graded 2 "F"], "m1"%string)
         ([Sample.graded 0 "T"; Sample.graded 1 "F"; Sample.graded 2 "T"], "m2"%string))
  = (Return (Table "m1" "m2" 1 1 1 0 3), []) /\
  (1 + 1 + 1 + 0 = 3)%Z.
Proof.
  assert (Hrun : run (BC.calculate_mcnemar_values
         ([Sample.graded 0 "T"; Sample.graded 1 "t"; Sample.graded 2 "F"], "m1"%string)
         ([Sample.graded 0 "T"; Sample.graded 1 "F"; Sample.graded 2 "T"], "m2"%string))
         = (Return (Table "m1" "m2" 1 1 1 0 3), [])) by (vm_compute; reflexivity).
  split; [exact Hrun|].
  destruct (contingency_counts_total
              [Sample.graded 0 "T"; Sample.graded 1 "t"; Sample.graded 2 "F"]
              [Sample.graded 0 "T"; Sample.graded 1 "F"; Sample.graded 2 "T"]
              "m1" "m2") as [_ Hbc].
  destruct (Hbc _ _ Hrun) as [Hsum _]. exact Hsum.
Defined.

(** C5, as stated, fails for [calculate_b_c.py]: on inputs of lengths 1 and
    0 it raises and compares nothing. *)
Lemma length_mismatch_rejected_by_b_c :
  ~ Stated.truncates_with_warning BC.calculate_mcnemar_values
      ([Sample.graded 0 "T"], "m1"%string) ([], "m2"%string).
Proof.
  intros (t & out & Hrun & _). vm_compute in Hrun. discriminate Hrun.
Qed.

(** C5, amended.  When the two inputs differ in length,
    [calculate_mcnemar.py] prints the warning line and returns the record of
    the two inputs cut to the shorter length, while [calculate_b_c.py]
    raises [ValueError] and prints nothing. *)
Theorem length_mismatch_truncates_or_rejects
    (r1 r2 : list jobject) (name1 name2 : string) :
  length r1 <> length r2 ->
  Stated.truncates_with_warning Mcnemar.calculate_mcnemar_values
    (r1, name1) (r2, name2) /\
  (run (Mcnemar.calculate_mcnemar_values (r1, name1) (r2, name2))).2
  = [mismatch_warning r1 r2] /\
  run (BC.calculate_mcnemar_values (r1, name1) (r2, name2))
  = (Raise "ValueError"
       ("result length mismatch: " ++ len_text r1 ++ " vs " ++ len_text r2)%string,
     []).
Proof.
  intros Hlen. split; [|split].
  - unfold Stated.truncates_with_warning, run. cbn [fst snd].
    rewrite !mcnemar_values_run. rewrite bool_decide_true by assumption.
    eexists _, _. split; [reflexivity|]. split; [discriminate|].
    simpl. rewrite zip_take by reflexivity. reflexivity.
  - unfold run. rewrite mcnemar_values_run.
    rewrite bool_decide_true by assumption. reflexivity.
  - unfold run, BC.calculate_mcnemar_values, mbind, io_mbind, io_bind.
    rewrite bool_decide_true by assumption. reflexivity.
Qed.

Lemma length_mismatch_truncates_or_rejects_witness :
  length [Sample.graded 0 "T"; Sample.graded 1 "F"] <> length [Sample.graded 0 "T"] /\
  run (Mcnemar.calculate_mcnemar_values
         ([Sample.graded 0 "T"; Sample.graded 1 "F"], "m1"%string)
         ([Sample.graded 0 "T"], "m2"%string))
  = (Return (Table "m1" "m2" 1 0 0 0 1), ["warning: result count mismatch: 2 vs 1"%string]).
Proof.
  assert (Hlen : length [Sample.graded 0 "T"; Sample.graded 1 "F"]
                 <> length [Sample.graded 0 "T"]) by (simpl; lia).
  split; [exact Hlen|].
  destruct (length_mismatch_truncates_or_rejects _ _ "m1" "m2" Hlen)
    as ((t & out & Hrun & _ & _) & Hout & _).
  rewrite Hrun in Hout |- *. simpl in Hout. subst out.
  vm_compute in Hrun. inversion Hrun. reflexivity.
Defined.

(** C6.  Two aligned records that both carry a [question_num] and differ in
    it: [calculate_mcnemar.py] counts the pair and prints nothing, where
    [calculate_b_c.py] raises on the same input. *)
Theorem identity_mismatch_passes_unreported :
  run (Mcnemar.calculate_mcnemar_values
         ([Sample.graded 0 "T"], "m1"%string) ([Sample.graded 1 "T"], "m2"%string))
  = (Return (Table "m1" "m2" 1 0 0 0 1), []) /\
  run (BC.calculate_mcnemar_values
         ([Sample.graded 0 "T"], "m1"%string) ([Sample.graded 1 "T"], "m2"%string))
  = (Raise "ValueError" "question_num mismatch; inputs are not aligned", []).
Proof. split; vm_compute; reflexivity. Qed.

(** Whatever the records hold, inputs of equal length make
    [calculate_mcnemar.py] print nothing at all. *)
Lemma mcnemar_values_equal_length_silent r1 r2 name1 name2 :
  length r1 = length r2 ->
  (run (Mcnemar.calculate_mcnemar_values (r1, name1) (r2, name2))).2 = [].
Proof.
  intros Hlen. unfold run. rewrite mcnemar_values_run.
  rewrite bool_decide_false by (intros Hne; apply Hne, Hlen). reflexivity.
Qed.

(** C7, as stated, fails: two empty inputs raise nothing. *)
Lemma empty_input_not_rejected :
  ~ Stated.fails_with "EmptyInputError"
      (Mcnemar.calculate_mcnemar_values ([], "m1"%string) ([], "m2"%string)).
Proof.
  intros (msg & out & Hrun). vm_compute in Hrun. discriminate Hrun.
Qed.

(** C7, amended.  On two empty inputs both comparators return the record
    with every count and the total at [0] and print nothing; the statistic
    of that record is [0]. *)
Theorem empty_input_gives_zero_table (name1 name2 : string) :
  run (Mcnemar.calculate_mcnemar_values ([], name1) ([], name2))
  = (Return (Table name1 name2 0 0 0 0 0), []) /\
  run (BC.calculate_mcnemar_values ([], name1) ([], name2))
  = (Return (Table name1 name2 0 0 0 0 0), []) /\
  calculate_mcnemar_statistic (b (Table name1 name2 0 0 0 0 0))
                              (c (Table name1 name2 0 0 0 0 0)) = 0%Q.
Proof. repeat split. Qed.

End Comparator.

(* ===================================================================== *)
(** * The dominance test                                                  *)
(* ===================================================================== *)

Section Frontier.
Import Py Pareto.

Lemma dominates_spec (m2 m1 : run_point) :
  dominates m2 m1 = true <->
  (gpu_hours m2 < gpu_hours m1)%Q /\ (accuracy m1 < accuracy m2)%Q.
Proof.
  unfold dominates. rewrite andb_true_iff, !float_lt_spec. reflexivity.
Qed.

Lemma dominates_trans (m3 m2 m1 : run_point) :
  dominates m3 m2 = true -> dominates m2 m1 = true -> dominates m3 m1 = true.
Proof.
  rewrite !dominates_spec. intros [Hg1 Ha1] [Hg2 Ha2]. split.
  - eapply Qlt_trans; eassumption.
  - eapply Qlt_trans; eassumption.
Qed.

Lemma dominates_irrefl (m : run_point) : dominates m m = false.
Proof.
  apply not_true_iff_false. rewrite dominates_spec. intros [Hg _].
  exact (Qlt_irrefl _ Hg).
Qed.

Lemma lookup_map {A B} (f : A -> B) (xs : list A) : forall i,
  map f xs !! i = f <$> xs !! i.
Proof.
  induction xs as [|x xs IH]; intros [|i]; simpl; auto.
Qed.

Lemma lookup_enumerate_from {A} (xs : list A) : forall start i,
  enumerate_from start xs !! i = (fun x => (start + i, x)) <$> xs !! i.
Proof.
  induction xs as [|x xs IH]; intros start [|i]; simpl; auto.
  - rewrite Nat.add_0_r. reflexivity.
  - rewrite IH. rewrite Nat.add_succ_r. reflexivity.
Qed.

Lemma length_enumerate_from {A} (xs : list A) : forall start,
  length (enumerate_from start xs) = length xs.
Proof.
  induction xs as [|x xs IH]; intros start; simpl; auto.
Qed.

(** The inner loop answers [True] exactly when the list it scans holds, at
    an index other than [i], a point that dominates [m1]. *)
Lemma inner_loop_spec (i : nat) (m1 : run_point) (xs : list run_point) :
  forall start,
    inner_loop i m1 (enumerate_from start xs) = true <->
    exists j y, xs !! j = Some y /\ start + j <> i /\ dominates y m1 = true.
Proof.
  induction xs as [|x xs IH]; intros start; simpl.
  - split; [discriminate|]. intros (j & y & Hj & _). destruct j; discriminate.
  - destruct (negb (i =? start) && dominates x m1) eqn:Hhead.
    + split; [intros _|reflexivity].
      apply andb_true_iff in Hhead as [Hne Hdom].
      apply negb_true_iff, Nat.eqb_neq in Hne.
      exists 0, x. rewrite Nat.add_0_r. auto.
    + rewrite IH. split.
      * intros (j & y & Hj & Hne & Hdom). exists (S j), y.
        rewrite Nat.add_succ_r. auto.
      * intros (j & y & Hj & Hne & Hdom). destruct j as [|j].
        -- simpl in Hj. inversion Hj; subst y. rewrite Nat.add_0_r in Hne.
           apply andb_false_iff in Hhead as [Hhead|Hhead].
           ++ apply negb_false_iff, Nat.eqb_eq in Hhead. congruence.
           ++ congruence.
        -- exists j, y. rewrite Nat.add_succ_r in Hne. auto.
Qed.

Lemma inner_loop_dominated (models : list run_point) (i : nat) (x : run_point) :
  inner_loop i x (enumerate models) = true <-> dominated_in models i x.
Proof.
  unfold enumerate. rewrite inner_loop_spec. unfold dominated_in.
  split; intros (j & y & H1 & H2 & H3); exists j, y.
  - apply dominates_spec in H3. simpl in H2. tauto.
  - apply dominates_spec in H3. simpl. tauto.
Qed.

(** The flag at an index is computed from the point at that index. *)
Lemma lookup_is_pareto_optimal (models : list run_point) (i : nat) :
  is_pareto_optimal models !! i
  = (fun x => negb (inner_loop i x (enumerate models))) <$> models !! i.
Proof.
  unfold is_pareto_optimal. rewrite lookup_map. unfold enumerate.
  rewrite lookup_enumerate_from. destruct (models !! i); reflexivity.
Qed.

(** C2.  The list of flags is as long as the group, and the flag of the
    point at index [i] is true exactly when no point at another index has
    strictly fewer GPU hours and strictly higher accuracy. *)
Theorem pareto_flag_iff_not_dominated (models : list run_point) (i : nat) (x : run_point) :
  models !! i = Some x ->
  length (is_pareto_optimal models) = length models /\
  exists flag,
    is_pareto_optimal models !! i = Some flag /\
    (flag = true <->
     ~ exists j y, j <> i /\ models !! j = Some y /\
         (gpu_hours y < gpu_hours x)%Q /\ (accuracy x < accuracy y)%Q).
Proof.
  intros Hx. split.
  - unfold is_pareto_optimal, enumerate.
    rewrite length_map. apply length_enumerate_from.
  - exists (negb (inner_loop i x (enumerate models))). split.
    + rewrite lookup_is_pareto_optimal, Hx. reflexivity.
    + rewrite negb_true_iff, <- not_true_iff_false, inner_loop_dominated.
      reflexivity.
Qed.

Lemma pareto_flag_iff_not_dominated_witness :
  [RunPoint "a" 1 50; RunPoint "b" 2 80; RunPoint "c" 3 70; RunPoint "d" 3 80] !! 3
  = Some (RunPoint "d" 3 80) /\
  is_pareto_optimal
    [RunPoint "a" 1 50; RunPoint "b" 2 80; RunPoint "c" 3 70; RunPoint "d" 3 80]
  = [true; true; false; true] /\
  ~ exists j y, j <> 3 /\
      [RunPoint "a" 1 50; RunPoint "b" 2 80; RunPoint "c" 3 70; RunPoint "d" 3 80] !! j
      = Some y /\
      (gpu_hours y < 3)%Q /\ (80 < accuracy y)%Q.
Proof.
  split; [reflexivity|]. split; [vm_compute; reflexivity|].
  destruct (pareto_flag_iff_not_dominated
              [RunPoint "a" 1 50; RunPoint "b" 2 80; RunPoint "c" 3 70; RunPoint "d" 3 80]
              3 (RunPoint "d" 3 80) eq_refl) as (_ & flag & Hflag & Hiff).
  vm_compute in Hflag. inversion Hflag; subst flag.
  apply Hiff. reflexivity.
Defined.

Lemma lookup_delete_lift {A} (l : list A) (k i : nat) :
  delete k l !! i = l !! lift k i.
Proof.
  unfold lift. destruct (decide (i < k)).
  - apply list_lookup_delete_lt. assumption.
  - apply list_lookup_delete_ge. lia.
Qed.

Lemma lift_inj (k i j : nat) : lift k i = lift k j -> i = j.
Proof. unfold lift. repeat destruct (decide _); lia. Qed.

Lemma lift_surj (k j : nat) : j <> k -> exists i, lift k i = j.
Proof.
  intros Hne. unfold lift. destruct (decide (j < k)).
  - exists j. destruct (decide (j < k)); [reflexivity|contradiction].
  - exists (j - 1). destruct (decide (j - 1 < k)); lia.
Qed.

(** Deleting a dominated point takes no dominator away from the others:
    whatever the deleted point dominated is dominated by its own dominator. *)
Lemma dominated_in_delete (models : list run_point) (k : nat) (p : run_point)
    (i : nat) (x : run_point) :
  models !! k = Some p ->
  dominated_in models k p ->
  models !! lift k i = Some x ->
  dominated_in (delete k models) i x <-> dominated_in models (lift k i) x.
Proof.
  intros Hp (q & z & Hqk & Hz & Hzg & Hza) Hx. split.
  - intros (j & y & Hji & Hy & Hg & Ha). exists (lift k j), y.
    rewrite lookup_delete_lift in Hy.
    split; [intros Heq; apply Hji, (lift_inj k), Heq|]. auto.
  - intros (j & y & Hji & Hy & Hg & Ha).
    destruct (decide (j = k)) as [->|Hjk].
    + assert (y = p) by congruence. subst y.
      assert (Hqi : q <> lift k i).
      { intros ->. assert (z = x) by congruence. subst z.
        apply (Qlt_irrefl (gpu_hours x)). eapply Qlt_trans; eassumption. }
      destruct (lift_surj k q Hqk) as [q' Hq']. exists q', z.
      split; [intros ->; apply Hqi; symmetry; exact Hq'|].
      rewrite lookup_delete_lift, Hq'. split; [assumption|]. split.
      * eapply Qlt_trans; eassumption.
      * eapply Qlt_trans; eassumption.
    + destruct (lift_surj k j Hjk) as [j' Hj']. exists j', y.
      split; [intros ->; apply Hji; symmetry; exact Hj'|].
      rewrite lookup_delete_lift, Hj'. auto.
Qed.

(** C9.  When the flag of the point at index [k] is false, the flags
    computed for the group without that point are the flags of the group
    with the entry at [k] taken out: every remaining point keeps its flag. *)
Theorem pareto_stable_under_removal (models : list run_point) (k : nat) :
  is_pareto_optimal models !! k = Some false ->
  is_pareto_optimal (delete k models) = delete k (is_pareto_optimal models).
Proof.
  intros Hk. rewrite lookup_is_pareto_optimal in Hk.
  destruct (models !! k) as [p|] eqn:Hp; [|discriminate].
  simpl in Hk. injection Hk as Hk.
  apply negb_false_iff, inner_loop_dominated in Hk.
  apply list_eq. intros i.
  rewrite lookup_is_pareto_optimal, !lookup_delete_lift, lookup_is_pareto_optimal.
  destruct (models !! lift k i) as [x|] eqn:Hx; [|reflexivity].
  simpl. do 2 f_equal. apply eq_true_iff_eq.
  rewrite !inner_loop_dominated. eapply dominated_in_delete; eassumption.
Qed.

Lemma pareto_stable_under_removal_witness :
  is_pareto_optimal
    [RunPoint "a" 1 50; RunPoint "b" 2 80; RunPoint "c" 3 70; RunPoint "d" 4 60] !! 2
  = Some false /\
  is_pareto_optimal [RunPoint "a" 1 50; RunPoint "b" 2 80; RunPoint "d" 4 60]
  = [true; true; false].
Proof.
  assert (Hflag : is_pareto_optimal
    [RunPoint "a" 1 50; RunPoint "b" 2 80; RunPoint "c" 3 70; RunPoint "d" 4 60] !! 2
    = Some false) by (vm_compute; reflexivity).
  split; [exact Hflag|].
  change [RunPoint "a" 1 50; RunPoint "b" 2 80; RunPoint "d" 4 60]
    with (delete 2 [RunPoint "a" 1 50; RunPoint "b" 2 80; RunPoint "c" 3 70;
                    RunPoint "d" 4 60]).
  rewrite (pareto_stable_under_removal _ 2 Hflag).
  vm_compute. reflexivity.
Defined.

End Frontier.

(* ===================================================================== *)
(** * Trimming                                                            *)
(* ===================================================================== *)

Section Trimming.
Import Py.

Lemma lstrip_no_leading_space (s : string) : starts_with_space (lstrip s) = false.
Proof.
  induction s as [|c s IH]; simpl; [reflexivity|].
  destruct (isspace c) eqn:Hc; [exact IH|]. simpl. exact Hc.
Qed.

Lemma rstrip_keeps_first (s : string) :
  starts_with_space s = false -> starts_with_space (rstrip s) = false.
Proof.
  destruct s as [|c s]; simpl; [reflexivity|]. intros Hc.
  destruct (rstrip s); rewrite ?Hc; simpl; exact Hc.
Qed.

Lemma rstrip_no_trailing_space (s : string) : ends_with_space (rstrip s) = false.
Proof.
  induction s as [|c s IH]; simpl; [reflexivity|].
  destruct (rstrip s) as [|c' r] eqn:Hr.
  - destruct (isspace c) eqn:Hc; simpl; [reflexivity|exact Hc].
  - simpl in *. exact IH.
Qed.

(** What [strip] returns has white space at neither end. *)
Lemma strip_no_surrounding_space (s : string) :
  starts_with_space (strip s) = false /\ ends_with_space (strip s) = false.
Proof.
  unfold strip. split.
  - apply rstrip_keeps_first, lstrip_no_leading_space.
  - apply rstrip_no_trailing_space.
Qed.

Lemma clean_answer_no_surrounding_space (strip_think : bool) (ans : string) :
  starts_with_space (Evaluate.clean_answer strip_think ans) = false /\
  ends_with_space (Evaluate.clean_answer strip_think ans) = false.
Proof.
  unfold Evaluate.clean_answer. destruct strip_think;
    apply strip_no_surrounding_space.
Qed.

End Trimming.

(* ===================================================================== *)
(** * The retry loop and the run                                          *)
(* ===================================================================== *)

Section Runner.
Import Py Evaluate.

Variable backend : nat -> Z -> request -> outcome string.
Variable now : nat -> string.
Variable norwegian_prompt : string.

Lemma elem_of_range (lo hi a : Z) : a ∈ range lo hi <-> (lo <= a < hi)%Z.
Proof.
  unfold range. rewrite list_elem_of_In, in_map_iff. split.
  - intros (i & <- & Hi). apply in_seq in Hi. lia.
  - intros Ha. exists (Z.to_nat (a - lo)). split; [lia|].
    apply in_seq. lia.
Qed.

Lemma range_snoc (lo hi : Z) :
  (lo <= hi)%Z -> range lo (hi + 1) = (range lo hi ++ [hi])%list.
Proof.
  intros Hle. unfold range.
  replace (Z.to_nat (hi + 1 - lo)) with (Z.to_nat (hi - lo) + 1) by lia.
  rewrite seq_app, map_app. simpl. do 2 f_equal. lia.
Qed.

Lemma seq_offset (k n : nat) : forall start,
  seq (k + start) n = map (fun i => k + i) (seq start n).
Proof.
  induction n as [|n IH]; intros start; simpl; [reflexivity|].
  f_equal. rewrite <- IH. f_equal. lia.
Qed.

Lemma range_split (lo hi a : Z) :
  (lo <= a < hi)%Z -> range lo hi = (range lo a ++ a :: range (a + 1) hi)%list.
Proof.
  intros Ha. unfold range.
  replace (Z.to_nat (hi - lo))
    with (Z.to_nat (a - lo) + S (Z.to_nat (hi - (a + 1)))) by lia.
  rewrite seq_app, map_app. f_equal. cbn [seq map Nat.add]. f_equal; [lia|].
  replace (S (Z.to_nat (a - lo))) with (S (Z.to_nat (a - lo)) + 0) by lia.
  rewrite seq_offset, map_map. apply map_ext. intros i. lia.
Qed.

Lemma sleep_quiet (secs : Q) (out : list string) :
  sleep_accepts secs -> sleep secs out = (Return tt, out).
Proof.
  intros [Hpos Hfit]. unfold sleep.
  assert (Hns : (0 <= secs * inject_Z (10 ^ 9))%Q)
    by (apply Qmult_le_0_compat; [exact Hpos | discriminate]).
  replace (float_lt (secs * inject_Z (10 ^ 9)) (- inject_Z (2 ^ 63))) with false.
  - replace (float_lt (secs * inject_Z (10 ^ 9)) (inject_Z (2 ^ 63))) with true
      by (symmetry; apply float_lt_spec, Hfit).
    replace (float_lt secs 0) with false
      by (symmetry; apply float_lt_false, Hpos).
    reflexivity.
  - symmetry. apply float_lt_false.
    eapply Qle_trans; [|exact Hns]. discriminate.
Qed.

Lemma sleep_hasty (secs : Q) (out : list string) :
  sleep_refuses secs ->
  sleep secs out = (Raise "ValueError" "sleep length must be non-negative", out).
Proof.
  intros [Hneg Hfit]. unfold sleep.
  replace (float_lt (secs * inject_Z (10 ^ 9)) (- inject_Z (2 ^ 63))) with false
    by (symmetry; apply float_lt_false, Hfit).
  replace (float_lt (secs * inject_Z (10 ^ 9)) (inject_Z (2 ^ 63))) with true.
  - replace (float_lt secs 0) with true by (symmetry; apply float_lt_spec, Hneg).
    reflexivity.
  - symmetry. apply float_lt_spec.
    apply Qle_lt_trans with (y := (0 * inject_Z (10 ^ 9))%Q); [|reflexivity].
    apply Qmult_le_compat_r; [apply Qlt_le_weak, Hneg | discriminate].
Qed.

(** With failures that are exceptions and a delay [time.sleep] accepts, the
    retry loop returns, and what it returns is the settled answer. *)
Lemma attempt_loop_run (config : EvalConfig) (idx : nat) (req : request) :
  failures_are_exceptions backend ->
  sleep_accepts (retry_sleep_s config) ->
  forall todo last_exc out, exists out',
    attempt_loop backend config idx req todo last_exc out
    = (Return (settled_answer backend config idx req todo last_exc), out').
Proof.
  intros Hexc Hsleep. induction todo as [|attempt todo IH]; intros last_exc out.
  - eexists. reflexivity.
  - cbn [attempt_loop settled_answer].
    destruct (backend idx attempt req) as [ans|cls exc] eqn:Hcall.
    + eexists. reflexivity.
    + rewrite (Hexc _ _ _ _ _ Hcall).
      unfold mbind, io_mbind, io_bind, print.
      destruct (attempt <? max_retries config)%Z;
        [rewrite (sleep_quiet _ _ Hsleep)|]; apply IH.
Qed.

(** When every attempt fails the settled answer is the sentinel with the
    message of the last failure. *)
Lemma settled_answer_all_fail (config : EvalConfig) (idx : nat) (req : request)
    (last : Z) (cause : string) (cls : string) :
  backend idx last req = Raise cls cause ->
  forall todo last_exc,
    (forall a, a ∈ todo -> exists c e, backend idx a req = Raise c e) ->
    settled_answer backend config idx req (todo ++ [last]) last_exc
    = ("ERROR: " ++ cause)%string.
Proof.
  intros Hlast. induction todo as [|a todo IH]; intros last_exc Hall; simpl.
  - rewrite Hlast. reflexivity.
  - destruct (Hall a) as (c & e & Ha); [left|].
    rewrite Ha. apply IH. intros a' Ha'. apply Hall. right. exact Ha'.
Qed.

(** The first attempt that succeeds settles the answer. *)
Lemma settled_answer_first_success (config : EvalConfig) (idx : nat) (req : request)
    (attempt : Z) (ans : string) :
  backend idx attempt req = Return ans ->
  forall before after last_exc,
    (forall a, a ∈ before -> exists c e, backend idx a req = Raise c e) ->
    settled_answer backend config idx req (before ++ attempt :: after) last_exc
    = clean_answer (strip_think config) ans.
Proof.
  intros Hok. induction before as [|a before IH]; intros after last_exc Hall; simpl.
  - rewrite Hok. reflexivity.
  - destruct (Hall a) as (c & e & Ha); [left|].
    rewrite Ha. apply IH. intros a' Ha'. apply Hall. right. exact Ha'.
Qed.

(** Under the same two conditions the loop over the questions returns the
    entries it was given followed by one entry for each question. *)
Lemma question_loop_run (config : EvalConfig) (system_prompt : string) :
  system_prompt = _get_system_prompt norwegian_prompt (lang config) ->
  failures_are_exceptions backend ->
  sleep_accepts (retry_sleep_s config) ->
  forall items acc out, exists out',
    for_each items (question_body backend now config system_prompt) acc out
    = (Return (acc ++ map (record_of backend norwegian_prompt config) items)%list, out').
Proof.
  intros -> Hexc Hsleep. induction items as [|[idx qa] items IH]; intros acc out.
  - exists out. simpl. rewrite app_nil_r. reflexivity.
  - cbn [for_each]. unfold io_bind at 1.
    unfold question_body, mbind, io_mbind, io_bind at 1.
    destruct (attempt_loop_run config idx (request_for norwegian_prompt config qa)
                Hexc Hsleep (range 1 (max_retries config + 1)) None out)
      as [out1 Hloop].
    unfold request_for in Hloop. rewrite Hloop.
    unfold io_bind, print, mret, io_mret, io_ret.
    destruct (((Z.of_nat idx + 1) mod 25 =? 0)%Z || (idx =? 0)%nat).
    + edestruct IH as [out' Hrest]. rewrite Hrest. exists out'.
      simpl. rewrite <- app_assoc. reflexivity.
    + edestruct IH as [out' Hrest]. rewrite Hrest. exists out'.
      simpl. rewrite <- app_assoc. reflexivity.
Qed.

Lemma run_eval_run (config : EvalConfig) (qa_pairs : list jobject) :
  failures_are_exceptions backend ->
  sleep_accepts (retry_sleep_s config) ->
  exists out,
    run (run_eval backend now norwegian_prompt config qa_pairs)
    = (Return (map (record_of backend norwegian_prompt config)
                   (enumerate (_load_pairs qa_pairs (num_q config)))), out).
Proof.
  intros Hexc Hsleep. unfold run, run_eval, mbind, io_mbind, io_bind, print.
  edestruct (question_loop_run config _ eq_refl Hexc Hsleep) as [out Hloop].
  rewrite Hloop. exists out. reflexivity.
Qed.

(** Whatever the delay, a retry loop that returns has returned the settled
    answer, and so has the loop over the questions. *)
Lemma attempt_loop_returns (config : EvalConfig) (idx : nat) (req : request) :
  forall todo last_exc out ans out',
    attempt_loop backend config idx req todo last_exc out = (Return ans, out') ->
    ans = settled_answer backend config idx req todo last_exc.
Proof.
  induction todo as [|attempt todo IH]; intros last_exc out ans out' Hrun.
  - simpl in Hrun. inversion Hrun. reflexivity.
  - cbn [attempt_loop settled_answer] in *.
    destruct (backend idx attempt req) as [text|cls exc].
    + inversion Hrun. reflexivity.
    + destruct (is_Exception cls); [|discriminate].
      unfold mbind, io_mbind, io_bind, print in Hrun.
      destruct (attempt <? max_retries config)%Z.
      * destruct (sleep (retry_sleep_s config) _) as [[[]|c m] out1];
          [eapply IH, Hrun | discriminate].
      * eapply IH, Hrun.
Qed.

Lemma question_loop_returns (config : EvalConfig) :
  forall items acc out results out',
    for_each items
      (question_body backend now config
         (_get_system_prompt norwegian_prompt (lang config))) acc out
    = (Return results, out') ->
    results = (acc ++ map (record_of backend norwegian_prompt config) items)%list.
Proof.
  induction items as [|[idx qa] items IH]; intros acc out results out' Hrun.
  - simpl in Hrun. inversion Hrun. rewrite app_nil_r. reflexivity.
  - cbn [for_each] in Hrun. unfold io_bind at 1 in Hrun.
    unfold question_body, mbind, io_mbind, io_bind at 1 in Hrun.
    destruct (attempt_loop _ _ _ _ _ _ _) as [[ans|cls exc] out1] eqn:Hloop.
    + apply attempt_loop_returns in Hloop. subst ans.
      unfold io_bind, print, mret, io_mret, io_ret in Hrun.
      destruct (((Z.of_nat idx + 1) mod 25 =? 0)%Z || (idx =? 0)%nat);
        apply IH in Hrun; rewrite Hrun, <- app_assoc; reflexivity.
    + unfold io_bind in Hrun. discriminate.
Qed.

Lemma run_eval_returns (config : EvalConfig) (qa_pairs : list jobject) results out :
  run (run_eval backend now norwegian_prompt config qa_pairs) = (Return results, out) ->
  results = map (record_of backend norwegian_prompt config)
                (enumerate (_load_pairs qa_pairs (num_q config))).
Proof.
  unfold run, run_eval, mbind, io_mbind, io_bind, print. intros Hrun.
  apply question_loop_returns in Hrun. exact Hrun.
Qed.

Lemma lookup_records (config : EvalConfig) (pairs : list jobject) (idx : nat) :
  map (record_of backend norwegian_prompt config) (enumerate pairs) !! idx
  = (fun qa => record_of backend norwegian_prompt config (idx, qa)) <$> pairs !! idx.
Proof.
  rewrite lookup_map. unfold enumerate. rewrite lookup_enumerate_from.
  destruct (pairs !! idx); reflexivity.
Qed.

(** C3.  With at least one attempt allowed and a delay [time.sleep]
    accepts, the run returns, whichever calls of the backend fail, a failure
    being an exception that [except Exception] catches; it returns one
    entry for each question, in the order of the questions, the entry at
    index [idx] carrying [idx] as its [question_num]; and a question whose
    every attempt failed has the answer ["ERROR: "] followed by the message
    of the last failure. *)
Theorem run_eval_one_record_per_question
    (config : EvalConfig) (qa_pairs : list jobject) :
  (1 <= max_retries config)%Z ->
  sleep_accepts (retry_sleep_s config) ->
  failures_are_exceptions backend ->
  let pairs := _load_pairs qa_pairs (num_q config) in
  exists results out,
    run (run_eval backend now norwegian_prompt config qa_pairs) = (Return results, out) /\
    length results = length pairs /\
    forall idx qa, pairs !! idx = Some qa ->
      exists r,
        results !! idx = Some r /\
        question_num r = Z.of_nat idx /\
        question r = str (get qa "question" (JStr "")) /\
        correct_ans r = str (get qa "answer" (JStr "")) /\
        ((forall attempt, (1 <= attempt <= max_retries config)%Z ->
            exists cls exc,
              backend idx attempt (request_for norwegian_prompt config qa)
              = Raise cls exc) ->
         exists cls cause,
           backend idx (max_retries config) (request_for norwegian_prompt config qa)
           = Raise cls cause /\
           model_ans r = ("ERROR: " ++ cause)%string).
Proof.
  intros Hretries Hdelay Hexc pairs.
  destruct (run_eval_run config qa_pairs Hexc Hdelay) as [out Hrun].
  eexists _, out. split; [exact Hrun|]. fold pairs. split.
  - rewrite length_map. unfold enumerate. apply length_enumerate_from.
  - intros idx qa Hqa. rewrite lookup_records, Hqa.
    eexists. split; [reflexivity|]. simpl. repeat split.
    intros Hall.
    destruct (Hall (max_retries config) ltac:(lia)) as (cls & cause & Hlast).
    exists cls, cause. split; [exact Hlast|].
    rewrite range_snoc by lia.
    eapply settled_answer_all_fail; [exact Hlast|].
    intros a Ha. apply elem_of_range in Ha. apply Hall. lia.
Qed.

(** C10.  In whatever the run returns, a question with an attempt that
    succeeded has for answer the text of its first successful attempt,
    trimmed (after the span is removed when that rule is on, as it is when it
    is off), and the answer has white space at neither end. *)
Theorem successful_answer_is_trimmed
    (config : EvalConfig) (qa_pairs : list jobject)
    (results : list qa_result) (out : list string)
    (idx : nat) (qa : jobject) (attempt : Z) (text : string) :
  run (run_eval backend now norwegian_prompt config qa_pairs) = (Return results, out) ->
  _load_pairs qa_pairs (num_q config) !! idx = Some qa ->
  (1 <= attempt <= max_retries config)%Z ->
  backend idx attempt (request_for norwegian_prompt config qa) = Return text ->
  (forall earlier, (1 <= earlier < attempt)%Z ->
     exists cls exc,
       backend idx earlier (request_for norwegian_prompt config qa) = Raise cls exc) ->
  exists r,
    results !! idx = Some r /\
    model_ans r
    = strip (if strip_think config then re_sub THINK_REGEX "" text else text) /\
    starts_with_space (model_ans r) = false /\
    ends_with_space (model_ans r) = false.
Proof.
  intros Hrun Hqa Hattempt Hok Hearlier.
  apply run_eval_returns in Hrun. subst results.
  rewrite lookup_records, Hqa. eexists. split; [reflexivity|]. simpl.
  rewrite (range_split 1 (max_retries config + 1) attempt) by lia.
  rewrite (settled_answer_first_success config idx _ attempt text Hok).
  - split; [unfold clean_answer; destruct (strip_think config); reflexivity|].
    apply clean_answer_no_surrounding_space.
  - intros a Ha. apply elem_of_range in Ha. apply Hearlier. exact Ha.
Qed.

(** Outside the conditions of C3 the sentinel loses its cause, or the run
    stops: with no attempt allowed the answer is the bare ["ERROR"]. *)
Lemma no_attempt_gives_bare_sentinel (config : EvalConfig) (idx : nat) (req : request) :
  (max_retries config <= 0)%Z ->
  settled_answer backend config idx req (range 1 (max_retries config + 1)) None
  = "ERROR"%string.
Proof.
  intros Hle. unfold range.
  replace (Z.to_nat (max_retries config + 1 - 1)) with 0 by lia. reflexivity.
Qed.

End Runner.

Section RunnerWitnesses.
Import Py Evaluate.

Lemma run_eval_one_record_per_question_witness :
  (1 <= max_retries Sample.sample_config)%Z /\
  sleep_accepts (retry_sleep_s Sample.sample_config) /\
  failures_are_exceptions Sample.sample_backend /\
  exists results out,
    run (run_eval Sample.sample_backend Sample.sample_now "" Sample.sample_config
           Sample.sample_pairs) = (Return results, out) /\
    length results = 3 /\
    model_ans <$> results !! 2 = Some "ERROR: timed out 2"%string.
Proof.
  assert (H1 : (1 <= max_retries Sample.sample_config)%Z) by (simpl; lia).
  assert (H2 : sleep_accepts (retry_sleep_s Sample.sample_config))
    by (split; [discriminate | reflexivity]).
  assert (H3 : failures_are_exceptions Sample.sample_backend).
  { intros [|[|idx]] attempt req cls exc Hcall; simpl in Hcall.
    - discriminate.
    - destruct (attempt =? 2)%Z; [discriminate|].
      injection Hcall as <- _. reflexivity.
    - injection Hcall as <- _. reflexivity. }
  split; [exact H1|]. split; [exact H2|]. split; [exact H3|].
  destruct (run_eval_one_record_per_question Sample.sample_backend Sample.sample_now ""
              Sample.sample_config Sample.sample_pairs H1 H2 H3)
    as (results & out & Hrun & Hlen & Hrec).
  exists results, out. split; [exact Hrun|]. split; [exact Hlen|].
  destruct (Hrec 2 (Sample.qa_pair "q2" "a2") eq_refl)
    as (r & Hr & _ & _ & _ & Hfail).
  rewrite Hr. simpl. f_equal.
  destruct Hfail as (cls & cause & Hlast & Hans).
  - intros attempt _. eexists _, _. reflexivity.
  - rewrite Hans. simpl in Hlast. inversion Hlast. reflexivity.
Defined.

(** The sample run returns. *)
Lemma sample_run_returns :
  exists out,
    run (run_eval Sample.sample_backend Sample.sample_now "" Sample.sample_config
           Sample.sample_pairs)
    = (Return (map (record_of Sample.sample_backend "" Sample.sample_config)
                 (enumerate (_load_pairs Sample.sample_pairs
                               (num_q Sample.sample_config)))), out).
Proof.
  apply run_eval_run.
  - intros [|[|idx]] attempt req cls exc Hcall; simpl in Hcall.
    + discriminate.
    + destruct (attempt =? 2)%Z; [discriminate|].
      injection Hcall as <- _. reflexivity.
    + injection Hcall as <- _. reflexivity.
  - split; [discriminate | reflexivity].
Qed.

Lemma successful_answer_is_trimmed_witness :
  exists results out r,
    run (run_eval Sample.sample_backend Sample.sample_now "" Sample.sample_config
           Sample.sample_pairs) = (Return results, out) /\
    results !! 1 = Some r /\
    model_ans r = "<think>hm</think> Oslo"%string /\
    starts_with_space (model_ans r) = false /\
    ends_with_space (model_ans r) = false.
Proof.
  destruct sample_run_returns as [out Hrun].
  destruct (successful_answer_is_trimmed Sample.sample_backend Sample.sample_now ""
              Sample.sample_config Sample.sample_pairs _ out
              1 (Sample.qa_pair "q1" "a1") 2 " <think>hm</think> Oslo " Hrun)
    as (r & Hr & Hans & Hfront & Hback).
  - reflexivity.
  - simpl. lia.
  - reflexivity.
  - intros earlier Hearlier. assert (earlier = 1%Z) as -> by lia.
    eexists _, _. reflexivity.
  - eexists _, out, r. split; [exact Hrun|]. split; [exact Hr|].
    split; [rewrite Hans; vm_compute; reflexivity|]. split; assumption.
Defined.

(** Why C3 asks for a delay [time.sleep] accepts: [time.sleep] raises in
    the handler of the first failed attempt, and the exception leaves the
    run. *)
Example negative_delay_leaves_the_run :
  (run (run_eval Sample.sample_backend Sample.sample_now "" Sample.hasty_config
          Sample.sample_pairs)).1
  = Raise "ValueError" "sleep length must be non-negative".
Proof. vm_compute. reflexivity. Qed.

(** Why C3 asks for failures that are exceptions: a call of the backend
    that ends with [KeyboardInterrupt] is not retried, and the run ends with
    it. *)
Example interrupt_leaves_the_run :
  (run (run_eval (fun _ _ _ => Raise "KeyboardInterrupt" "") Sample.sample_now ""
          Sample.sample_config Sample.sample_pairs)).1
  = Raise "KeyboardInterrupt" "".
Proof. vm_compute. reflexivity. Qed.

End RunnerWitnesses.

(* ===================================================================== *)
(** * The reasoning span                                                  *)
(* ===================================================================== *)

Section ReasoningSpan.
Import Py Evaluate.
Local Open Scope string_scope.

Lemma strip_prefix_spec (pat : string) : forall s rest,
  strip_prefix pat s = Some rest <-> s = pat ++ rest.
Proof.
  induction pat as [|a pat IH]; intros s rest; simpl.
  - split; [intros [= ->]; reflexivity | intros ->; reflexivity].
  - destruct s as [|b s]; [split; discriminate|].
    destruct (Ascii.eqb a b) eqn:Hab.
    + apply Ascii.eqb_eq in Hab. subst b. rewrite IH.
      split; [intros ->; reflexivity | intros [= ->]; reflexivity].
    + apply Ascii.eqb_neq in Hab. split; [discriminate|].
      intros [= -> _]. contradiction.
Qed.

Lemma occurs_cons (pat : string) (ch : ascii) (s : string) :
  occurs pat (String ch s)
  = match strip_prefix pat (String ch s) with
    | Some _ => true
    | None => occurs pat s
    end.
Proof. reflexivity. Qed.

Lemma occurs_tail (pat : string) (ch : ascii) (s : string) :
  occurs pat (String ch s) = false -> occurs pat s = false.
Proof.
  simpl. destruct (strip_prefix pat (String ch s)); [discriminate|auto].
Qed.

Lemma occurs_app_r (pat t : string) : forall a,
  occurs pat t = true -> occurs pat (a ++ t) = true.
Proof.
  induction a as [|ch a IH]; intros Ht; simpl; [exact Ht|].
  destruct (strip_prefix pat (String ch (a ++ t))); [reflexivity|].
  apply IH, Ht.
Qed.

Lemma app_cons (ch : ascii) (a t : string) : String ch a ++ t = String ch (a ++ t).
Proof. reflexivity. Qed.
Lemma app_nil (t : string) : "" ++ t = t.
Proof. reflexivity. Qed.
(** [occurs] is the search for a factor. *)
Lemma occurs_spec (pat : string) : forall s,
  occurs pat s = true <-> exists a c, s = a ++ pat ++ c.
Proof.
  induction s as [|ch s IH].
  - simpl. destruct (strip_prefix pat "") as [rest|] eqn:Hp.
    + apply strip_prefix_spec in Hp. split; [|reflexivity].
      intros _. exists "", rest. exact Hp.
    + split; [discriminate|]. intros (a & c & Heq).
      destruct a.
      * rewrite app_nil in Heq. apply strip_prefix_spec in Heq. congruence.
      * rewrite app_cons in Heq. discriminate.
  - simpl. destruct (strip_prefix pat (String ch s)) as [rest|] eqn:Hp.
    + apply strip_prefix_spec in Hp. split; [|reflexivity].
      intros _. exists "", rest. exact Hp.
    + rewrite IH. split.
      * intros (a & c & ->). exists (String ch a), c. reflexivity.
      * intros (a & c & Heq). destruct a as [|ch' a].
        -- rewrite app_nil in Heq. apply strip_prefix_spec in Heq. congruence.
        -- rewrite app_cons in Heq. injection Heq as _ ->. exists a, c. reflexivity.
Qed.

Lemma occurs_drop_newline (pat s : string) :
  occurs pat s = false -> occurs pat (drop_newline s) = false.
Proof.
  destruct s as [|ch s]; unfold drop_newline; [auto|].
  destruct (Ascii.eqb newline ch); [apply occurs_tail | auto].
Qed.

Lemma length_drop_newline (s : string) :
  String.length (drop_newline s) <= String.length s.
Proof.
  destruct s as [|ch s]; unfold drop_newline; [lia|].
  destruct (Ascii.eqb newline ch); cbn [String.length]; lia.
Qed.

(** The end of the expression: the end marker, then a newline if there is
    one. *)
Lemma match_end_marker (s : string) :
  match_here [Lit "</think>"; Opt newline] s
  = match strip_prefix "</think>" s with
    | Some rest => Some (drop_newline rest)
    | None => None
    end.
Proof.
  cbn [match_here]. destruct (strip_prefix "</think>" s) as [rest|]; [|reflexivity].
  destruct rest as [|ch rest]; [reflexivity|]. unfold drop_newline.
  destruct (Ascii.eqb newline ch); reflexivity.
Qed.

(** The starred dot followed by the end of the expression, one character
    at a time: the longer match is preferred. *)
Lemma match_star_step (ch : ascii) (s : string) :
  match_here [AnyStar true; Lit "</think>"; Opt newline] (String ch s)
  = match match_here [AnyStar true; Lit "</think>"; Opt newline] s with
    | Some rest => Some rest
    | None => match_here [Lit "</think>"; Opt newline] (String ch s)
    end.
Proof. reflexivity. Qed.

Lemma match_star_nil :
  match_here [AnyStar true; Lit "</think>"; Opt newline] "" = None.
Proof. reflexivity. Qed.

Lemma match_star_none (s : string) :
  occurs "</think>" s = false ->
  match_here [AnyStar true; Lit "</think>"; Opt newline] s = None.
Proof.
  induction s as [|ch s IH]; intros Hocc; [reflexivity|].
  rewrite match_star_step, IH by (eapply occurs_tail, Hocc).
  rewrite match_end_marker. rewrite occurs_cons in Hocc.
  destruct (strip_prefix "</think>" (String ch s)); [discriminate|reflexivity].
Qed.

(** The star runs to the last end marker. *)
Lemma match_star_last (post : string) :
  occurs "</think>" post = false ->
  forall mid,
    match_here [AnyStar true; Lit "</think>"; Opt newline] (mid ++ "</think>" ++ post)
    = Some (drop_newline post).
Proof.
  intros Hpost. induction mid as [|ch mid IH].
  - change ("" ++ "</think>" ++ post) with (String "<" ("/think>" ++ post)).
    rewrite match_star_step, match_star_none.
    + rewrite match_end_marker.
      change (String "<" ("/think>" ++ post)) with ("</think>" ++ post).
      assert (Hp : strip_prefix "</think>" ("</think>" ++ post) = Some post)
        by (apply strip_prefix_spec; reflexivity).
      rewrite Hp. reflexivity.
    + simpl. exact Hpost.
  - change (String ch mid ++ "</think>" ++ post)
      with (String ch (mid ++ "</think>" ++ post)).
    rewrite match_star_step, IH. reflexivity.
Qed.

Lemma match_think_regex (s : string) :
  match_here THINK_REGEX s
  = match strip_prefix "<think>" s with
    | Some inner => match_here [AnyStar true; Lit "</think>"; Opt newline] inner
    | None => None
    end.
Proof. reflexivity. Qed.

Lemma length_app (a b : string) :
  String.length (a ++ b) = String.length a + String.length b.
Proof.
  induction a as [|ch a IH]; [reflexivity|].
  rewrite app_cons. cbn [String.length]. rewrite IH. reflexivity.
Qed.

Lemma string_app_assoc (a b c : string) : (a ++ b) ++ c = a ++ b ++ c.
Proof.
  induction a as [|ch a IH]; [reflexivity|].
  rewrite !app_cons, IH. reflexivity.
Qed.

Lemma strip_prefix_cons (a b : ascii) (pat s : string) :
  strip_prefix (String a pat) (String b s)
  = if Ascii.eqb a b then strip_prefix pat s else None.
Proof. reflexivity. Qed.

(** No start marker begins inside a text that holds none, even when a
    start marker follows the text: the marker does not overlap itself. *)
Lemma start_marker_not_astride (ch : ascii) (pre rest : string) :
  occurs "<think>" (String ch pre) = false ->
  strip_prefix "<think>" (String ch pre ++ "<think>" ++ rest) = None.
Proof.
  rewrite occurs_cons.
  destruct (strip_prefix "<think>" (String ch pre)) eqn:Hhere; [discriminate|].
  intros _. revert Hhere. rewrite app_cons, !strip_prefix_cons.
  destruct (Ascii.eqb "<" ch); [|reflexivity].
  do 6 (destruct pre as [|? pre]; [reflexivity|];
        rewrite app_cons, !strip_prefix_cons;
        destruct (Ascii.eqb _ _); [|reflexivity]).
  discriminate.
Qed.

Lemma search_nil (re : list piece) :
  search re ""
  = match match_here re "" with
    | Some rest => Some ("", (String.length rest =? 0)%nat, rest)
    | None => None
    end.
Proof. reflexivity. Qed.

Lemma search_cons (re : list piece) (ch : ascii) (s : string) :
  search re (String ch s)
  = match match_here re (String ch s) with
    | Some rest =>
        Some ("", (String.length rest =? String.length (String ch s))%nat, rest)
    | None =>
        match search re s with
        | Some (before, empty, rest) => Some (String ch before, empty, rest)
        | None => None
        end
    end.
Proof. reflexivity. Qed.

Lemma has_span_cons (ch : ascii) (s : string) :
  has_span (String ch s)
  = match strip_prefix "<think>" (String ch s) with
    | Some inner => occurs "</think>" inner || has_span s
    | None => has_span s
    end.
Proof. reflexivity. Qed.

(** [has_span] says that a start marker is followed by an end marker. *)
Lemma has_span_spec (s : string) :
  has_span s = true <-> exists a b c, s = a ++ "<think>" ++ b ++ "</think>" ++ c.
Proof.
  induction s as [|ch s IH].
  - split; [discriminate|]. intros (a & b & c & Heq).
    destruct a; [rewrite app_nil in Heq | rewrite app_cons in Heq]; discriminate.
  - rewrite has_span_cons.
    destruct (strip_prefix "<think>" (String ch s)) as [inner|] eqn:Hhere.
    + rewrite orb_true_iff, occurs_spec, IH.
      apply strip_prefix_spec in Hhere. split.
      * intros [(b & c & ->)|(a & b & c & ->)].
        -- exists "", b, c. rewrite app_nil. exact Hhere.
        -- exists (String ch a), b, c. reflexivity.
      * intros (a & b & c & Heq). destruct a as [|ch' a].
        -- left. exists b, c. rewrite app_nil in Heq. rewrite Hhere in Heq.
           apply strip_prefix_spec in Heq.
           assert (Hp : strip_prefix "<think>" ("<think>" ++ inner) = Some inner)
             by (apply strip_prefix_spec; reflexivity).
           congruence.
        -- right. rewrite app_cons in Heq. injection Heq as _ ->.
           exists a, b, c. reflexivity.
    + rewrite IH. split.
      * intros (a & b & c & ->). exists (String ch a), b, c. reflexivity.
      * intros (a & b & c & Heq). destruct a as [|ch' a].
        -- rewrite app_nil in Heq. apply strip_prefix_spec in Heq. congruence.
        -- rewrite app_cons in Heq. injection Heq as _ ->.
           exists a, b, c. reflexivity.
Qed.

Lemma has_span_none (s : string) :
  occurs "</think>" s = false -> has_span s = false.
Proof.
  intros Hocc. apply not_true_iff_false. rewrite has_span_spec.
  intros (a & b & c & ->). apply not_true_iff_false in Hocc. apply Hocc.
  apply occurs_spec. exists (a ++ "<think>" ++ b), c.
  rewrite !string_app_assoc. reflexivity.
Qed.

(** Without a span the expression matches nowhere. *)
Lemma search_none (s : string) :
  has_span s = false -> search THINK_REGEX s = None.
Proof.
  induction s as [|ch s IH]; intros Hspan; [reflexivity|].
  rewrite has_span_cons in Hspan.
  rewrite search_cons, match_think_regex.
  destruct (strip_prefix "<think>" (String ch s)) as [inner|].
  - apply orb_false_iff in Hspan as [Hinner Hrest].
    rewrite match_star_none, IH by assumption. reflexivity.
  - rewrite IH by assumption. reflexivity.
Qed.

(** With one, the leftmost match starts at the first start marker and ends
    after the last end marker, and after the newline that follows it. *)
Lemma search_span (mid post : string) :
  occurs "</think>" post = false ->
  forall pre,
    occurs "<think>" pre = false ->
    search THINK_REGEX (pre ++ "<think>" ++ mid ++ "</think>" ++ post)
    = Some (pre, false, drop_newline post).
Proof.
  intros Hpost. induction pre as [|ch pre IH]; intros Hpre.
  - rewrite app_nil.
    change ("<think>" ++ mid ++ "</think>" ++ post)
      with (String "<" ("think>" ++ mid ++ "</think>" ++ post)).
    rewrite search_cons, match_think_regex.
    change (String "<" ("think>" ++ mid ++ "</think>" ++ post))
      with ("<think>" ++ mid ++ "</think>" ++ post).
    assert (Hp : strip_prefix "<think>" ("<think>" ++ mid ++ "</think>" ++ post)
                 = Some (mid ++ "</think>" ++ post))
      by (apply strip_prefix_spec; reflexivity).
    rewrite Hp, match_star_last by assumption.
    do 2 f_equal. f_equal. apply Nat.eqb_neq.
    pose proof (length_drop_newline post) as Hlen.
    rewrite !length_app. cbn [String.length]. lia.
  - pose proof (start_marker_not_astride ch pre (mid ++ "</think>" ++ post) Hpre)
      as Hhere.
    rewrite app_cons in Hhere |- *.
    rewrite search_cons, match_think_regex, Hhere.
    rewrite IH by (eapply occurs_tail, Hpre). reflexivity.
Qed.

Lemma sub_loop_none (re : list piece) (repl s : string) (fuel : nat) :
  search re s = None -> sub_loop fuel re repl s = s.
Proof.
  intros Hnone. destruct fuel; [reflexivity|]. cbn [sub_loop].
  rewrite Hnone. reflexivity.
Qed.

Lemma string_app_nil_r (s : string) : s ++ "" = s.
Proof.
  induction s as [|ch s IH]; [reflexivity|]. rewrite app_cons, IH. reflexivity.
Qed.

(** [re.sub(THINK_REGEX, "", s)] on a text with a span, and on one without. *)
Lemma re_sub_span (pre mid post : string) :
  occurs "<think>" pre = false ->
  occurs "</think>" post = false ->
  re_sub THINK_REGEX "" (pre ++ "<think>" ++ mid ++ "</think>" ++ post)
  = pre ++ drop_newline post.
Proof.
  intros Hpre Hpost. unfold re_sub. cbn [sub_loop].
  rewrite search_span by assumption.
  rewrite sub_loop_none; [rewrite app_nil; reflexivity|].
  apply search_none, has_span_none, occurs_drop_newline, Hpost.
Qed.

Lemma re_sub_no_span (s : string) :
  has_span s = false -> re_sub THINK_REGEX "" s = s.
Proof.
  intros Hspan. unfold re_sub. apply sub_loop_none, search_none, Hspan.
Qed.

(** C4, as stated, fails: of two spans the rule removes both, where the
    removal of the first span alone would keep ["<think>b</think>Y"]. *)
Lemma later_span_not_preserved :
  clean_answer true "<think>a</think><think>b</think>Y" = "Y" /\
  Stated.strip_first_span_nongreedy "<think>a</think><think>b</think>Y"
  = "<think>b</think>Y" /\
  clean_answer true "<think>a</think><think>b</think>Y"
  <> Stated.strip_first_span_nongreedy "<think>a</think><think>b</think>Y".
Proof.
  split; [vm_compute; reflexivity|]. split; [vm_compute; reflexivity|].
  vm_compute. discriminate.
Qed.

(** The star of the pattern is greedy: a text that stands between two spans
    goes with them. *)
Example text_between_spans_is_lost :
  clean_answer true "<think>a</think>X<think>b</think>Y" = "Y".
Proof. vm_compute. reflexivity. Qed.

End ReasoningSpan.

(* ===================================================================== *)
(** * More on the statistic                                               *)
(* ===================================================================== *)

Section StatisticMore.
Import Py Mcnemar.

(** X1.  The statistic does not change when the two discordant counts are
    exchanged, whatever integers they are. *)
Theorem statistic_symmetric (b c : Z) :
  calculate_mcnemar_statistic b c = calculate_mcnemar_statistic c b.
Proof.
  unfold calculate_mcnemar_statistic.
  replace (c + b)%Z with (b + c)%Z by lia.
  replace (Z.abs (c - b)) with (Z.abs (b - c)) by lia.
  reflexivity.
Qed.

Lemma statistic_positive_denominator (n : Z) (p : positive) :
  (inject_Z n / inject_Z (Z.pos p) == n # p)%Q.
Proof.
  unfold Qdiv, Qinv, Qmult, Qeq. simpl. lia.
Qed.

(** X2.  For counts that are not negative the statistic is not negative,
    and it is zero exactly when there is no discordant pair or the two
    counts differ by one; equal counts that are not zero give a statistic
    above zero. *)
Theorem statistic_zero_iff (b c : Z) :
  (0 <= b)%Z -> (0 <= c)%Z ->
  (0 <= calculate_mcnemar_statistic b c)%Q /\
  ((calculate_mcnemar_statistic b c == 0)%Q <->
   (b + c = 0)%Z \/ Z.abs (b - c) = 1%Z) /\
  ((0 < b)%Z -> (calculate_mcnemar_statistic b b == 1 # Z.to_pos (2 * b))%Q).
Proof.
  intros Hb Hc. unfold calculate_mcnemar_statistic.
  destruct (Z.eqb_spec (b + c) 0) as [Hz|Hnz].
  - split; [discriminate|]. split.
    + split; [intros _; left; exact Hz | reflexivity].
    + intros Hpos. lia.
  - destruct (b + c)%Z as [|p|p] eqn:Hbc; try lia.
    rewrite statistic_positive_denominator.
    assert (Hsq : (0 <= (Z.abs (b - c) - 1) ^ 2)%Z)
      by (rewrite Z.pow_2_r; nia).
    split; [unfold Qle; simpl; lia|]. split.
    + unfold Qeq. simpl. rewrite Z.mul_1_r. split.
      * intros Hzero. right. rewrite Z.pow_2_r in Hzero. nia.
      * intros [Hzero|Hone]; [lia|]. rewrite Hone. reflexivity.
    + intros Hpos. destruct (Z.eqb_spec (b + b) 0); [lia|].
      destruct (b + b)%Z as [|q|q] eqn:Hbb; try lia.
      rewrite statistic_positive_denominator.
      replace (b - b)%Z with 0%Z by lia. simpl.
      replace (2 * b)%Z with (Z.pos q) by lia. reflexivity.
Qed.

Lemma statistic_zero_iff_witness :
  (0 <= 3)%Z /\ (0 <= 4)%Z /\ (0 < 3)%Z /\
  (calculate_mcnemar_statistic 3 4 == 0)%Q /\
  (calculate_mcnemar_statistic 3 3 == 1 # 6)%Q.
Proof.
  destruct (statistic_zero_iff 3 4 ltac:(lia) ltac:(lia)) as (_ & Hiff & _).
  destruct (statistic_zero_iff 3 3 ltac:(lia) ltac:(lia)) as (_ & _ & Hsame).
  split; [lia|]. split; [lia|]. split; [lia|]. split.
  - apply Hiff. right. reflexivity.
  - apply (Hsame ltac:(lia)).
Defined.

End StatisticMore.

(* ===================================================================== *)
(** * More on the comparators                                             *)
(* ===================================================================== *)

Section ComparatorMore.
Import Py Mcnemar Further.
Local Open Scope string_scope.

Lemma upper_char_T (ch : ascii) :
  upper_char ch = "T"%char <-> ch = "T"%char \/ ch = "t"%char.
Proof.
  destruct ch as [[] [] [] [] [] [] [] []]; vm_compute;
    split; auto; intros H; try discriminate H;
    destruct H as [H|H]; discriminate H.
Qed.

Lemma upper_T (s : string) : upper s = "T" <-> s = "T" \/ s = "t".
Proof.
  destruct s as [|ch [|ch' s]]; cbn [upper].
  - split; [discriminate | intros [H|H]; discriminate H].
  - split.
    + intros [= H]. apply upper_char_T in H as [->| ->]; auto.
    + intros [[= ->]|[= ->]]; reflexivity.
  - split; [discriminate | intros [H|H]; discriminate H].
Qed.

Lemma strip_head (ch : ascii) (s : string) :
  isspace ch = false -> exists r, strip (String ch s) = String ch r.
Proof.
  intros Hch. unfold strip. cbn [lstrip]. rewrite Hch. cbn [rstrip].
  destruct (rstrip s); rewrite ?Hch; eauto.
Qed.

(** The text of an integer starts with a digit or a minus sign, and so is
    never the grade ["T"]. *)
Lemma int_text_not_T (z : Z) : upper (strip (str (JInt z))) <> "T".
Proof.
  cbn [str]. intros HT. apply upper_T in HT.
  assert (Hhead : exists ch r, strip (NilZero.string_of_int (Z.to_int z)) = String ch r
                               /\ ch <> "T"%char /\ ch <> "t"%char).
  { destruct (Z.to_int z) as [d|d]; destruct d;
      cbn [NilZero.string_of_int NilZero.string_of_uint NilEmpty.string_of_uint];
      match goal with
      | |- exists ch r, strip (String ?c ?s) = _ /\ _ =>
          destruct (strip_head c s eq_refl) as [r Hr];
          exists c, r; split; [exact Hr|split; discriminate]
      end. }
  destruct Hhead as (ch & r & Hstrip & HnT & Hnt).
  rewrite Hstrip in HT. destruct HT as [[= -> _]|[= -> _]]; contradiction.
Qed.

(** X3.  A record counts as a match exactly when its [grade] is a text that
    is ["T"] or ["t"] once the white space around it is removed: a missing
    grade, [null], a boolean or a number is no match. *)
Theorem is_match_iff (q : jobject) :
  is_match q = true <->
  exists s, q !! "grade" = Some (JStr s) /\ (strip s = "T" \/ strip s = "t").
Proof.
  unfold is_match, get. rewrite bool_decide_eq_true. split.
  - destruct (q !! "grade") as [[| [] |z|s]|] eqn:Hq; cbn [default].
    + vm_compute. discriminate.
    + vm_compute. discriminate.
    + vm_compute. discriminate.
    + intros HT. exfalso. exact (int_text_not_T z HT).
    + intros HT. exists s. split; [reflexivity|]. apply upper_T. exact HT.
    + vm_compute. discriminate.
  - intros (s & -> & Hs). cbn [default str]. apply upper_T. exact Hs.
Qed.

Lemma eqb_refl (v : jvalue) : eqb v v = true.
Proof.
  unfold eqb. destruct (as_int v); [apply Z.eqb_refl|].
  apply bool_decide_eq_true. reflexivity.
Qed.

Lemma eqb_sym (v w : jvalue) : eqb v w = eqb w v.
Proof.
  unfold eqb. destruct (as_int v), (as_int w); try apply Z.eqb_sym;
    apply bool_decide_ext; split; congruence.
Qed.

Lemma lookup_zip {A B} (xs : list A) : forall (ys : list B) i x y,
  zip xs ys !! i = Some (x, y) <-> xs !! i = Some x /\ ys !! i = Some y.
Proof.
  induction xs as [|x0 xs IH]; intros [|y0 ys] i x y; simpl.
  - split; [discriminate | intros [H _]; discriminate H].
  - split; [discriminate | intros [H _]; discriminate H].
  - split; [discriminate | intros [_ H]; destruct i; discriminate H].
  - destruct i as [|i]; simpl.
    + split; [intros [= -> ->]; auto | intros [[= ->] [= ->]]; reflexivity].
    + apply IH.
Qed.

(** The loop of [calculate_b_c.py] as a whole: it tallies every pair when
    all of them agree on [question_num], and raises at the first that does
    not; it prints in neither case. *)
Lemma bc_loop_run pairs : forall k out,
  for_each pairs BC.loop_body k out
  = if forallb (fun '(q1, q2) => same_question q1 q2) pairs
    then (Return (tally_from k pairs), out)
    else (Raise "ValueError" "question_num mismatch; inputs are not aligned", out).
Proof.
  induction pairs as [|[q1 q2] pairs IH]; intros k out; cbn [for_each forallb];
    [reflexivity|].
  unfold io_bind. rewrite bc_loop_body_run. unfold same_question at 1, neqb.
  destruct (eqb _ _); cbn [negb andb]; [apply IH | reflexivity].
Qed.

Lemma forallb_zip_lookup (r1 r2 : list jobject) :
  forallb (fun '(q1, q2) => same_question q1 q2) (zip r1 r2) = true <->
  forall i q1 q2, r1 !! i = Some q1 -> r2 !! i = Some q2 ->
                  same_question q1 q2 = true.
Proof.
  rewrite forallb_forall. split.
  - intros Hall i q1 q2 H1 H2.
    apply (Hall (q1, q2)). apply list_elem_of_In, list_elem_of_lookup.
    exists i. apply lookup_zip. auto.
  - intros Hall [q1 q2] Hin.
    apply list_elem_of_In, list_elem_of_lookup in Hin as [i Hi].
    apply lookup_zip in Hi as [H1 H2]. eapply Hall; eassumption.
Qed.

Lemma bc_values_run (r1 r2 : list jobject) (name1 name2 : string) :
  length r1 = length r2 ->
  run (BC.calculate_mcnemar_values (r1, name1) (r2, name2))
  = if forallb (fun '(q1, q2) => same_question q1 q2) (zip r1 r2)
    then (Return (table_of name1 name2 (tally_from (Counts 0 0 0 0) (zip r1 r2))), [])
    else (Raise "ValueError" "question_num mismatch; inputs are not aligned", []).
Proof.
  intros Hlen.
  unfold run, BC.calculate_mcnemar_values, mbind, io_mbind, io_bind.
  rewrite bool_decide_false by (intros Hne; apply Hne, Hlen).
  unfold io_ret. rewrite bc_loop_run.
  destruct (forallb _ _); reflexivity.
Qed.

(** X4.  [calculate_b_c.py] on two inputs of the same length: when the
    records at every index agree on [question_num] (two missing ones agree)
    it returns the table of the tallied pairs; when the records at some
    index disagree it raises [ValueError] for the misalignment and returns
    no table.  It prints nothing either way. *)
Theorem b_c_returns_iff_aligned (r1 r2 : list jobject) (name1 name2 : string) :
  length r1 = length r2 ->
  ((forall i q1 q2, r1 !! i = Some q1 -> r2 !! i = Some q2 ->
                    same_question q1 q2 = true) ->
   run (BC.calculate_mcnemar_values (r1, name1) (r2, name2))
   = (Return (table_of name1 name2 (tally_from (Counts 0 0 0 0) (zip r1 r2))), [])) /\
  (forall i q1 q2, r1 !! i = Some q1 -> r2 !! i = Some q2 ->
                   same_question q1 q2 = false ->
   run (BC.calculate_mcnemar_values (r1, name1) (r2, name2))
   = (Raise "ValueError" "question_num mismatch; inputs are not aligned", [])).
Proof.
  intros Hlen. rewrite (bc_values_run r1 r2 name1 name2 Hlen). split.
  - intros Hall. apply forallb_zip_lookup in Hall. rewrite Hall. reflexivity.
  - intros i q1 q2 H1 H2 Hdiff.
    destruct (forallb _ _) eqn:Hall; [|reflexivity].
    rewrite forallb_zip_lookup in Hall.
    rewrite (Hall i q1 q2 H1 H2) in Hdiff. discriminate.
Qed.

Lemma b_c_returns_iff_aligned_witness :
  length [Sample.graded 0 "T"; <["grade" := JStr "F"]> ∅]
  = length [Sample.graded 0 "F"; Sample.graded 7 "T"] /\
  run (BC.calculate_mcnemar_values
         ([Sample.graded 0 "T"; <["grade" := JStr "F"]> ∅], "m1")
         ([Sample.graded 0 "F"; Sample.graded 7 "T"], "m2"))
  = (Raise "ValueError" "question_num mismatch; inputs are not aligned", []) /\
  run (BC.calculate_mcnemar_values
         ([<["grade" := JStr "T"]> ∅], "m1") ([<["grade" := JStr "F"]> ∅], "m2"))
  = (Return (Table "m1" "m2" 0 1 0 0 1), []).
Proof.
  split; [reflexivity|]. split.
  - destruct (b_c_returns_iff_aligned
                [Sample.graded 0 "T"; <["grade" := JStr "F"]> ∅]
                [Sample.graded 0 "F"; Sample.graded 7 "T"] "m1" "m2" eq_refl)
      as [_ Hraise].
    apply (Hraise 1 (<["grade" := JStr "F"]> ∅) (Sample.graded 7 "T"));
      vm_compute; reflexivity.
  - destruct (b_c_returns_iff_aligned
                [<["grade" := JStr "T"]> ∅] [<["grade" := JStr "F"]> ∅]
                "m1" "m2" eq_refl) as [Hok _].
    rewrite Hok; [vm_compute; reflexivity|].
    intros [|[|i]] q1 q2 H1 H2; try discriminate H1.
    injection H1 as <-. injection H2 as <-. vm_compute. reflexivity.
Defined.

(** X5.  Whenever [calculate_b_c.py] returns a table,
    [calculate_mcnemar.py] returns the same table on the same inputs and
    prints nothing. *)
Theorem b_c_table_is_mcnemar_table
    (r1 r2 : list jobject) (name1 name2 : string) (t : table) (out : list string) :
  run (BC.calculate_mcnemar_values (r1, name1) (r2, name2)) = (Return t, out) ->
  run (Mcnemar.calculate_mcnemar_values (r1, name1) (r2, name2)) = (Return t, []).
Proof.
  unfold run. intros Hbc. apply bc_values_returns in Hbc as (Hlen & -> & _).
  rewrite mcnemar_values_run.
  rewrite bool_decide_false by (intros Hne; apply Hne, Hlen). reflexivity.
Qed.

Lemma b_c_table_is_mcnemar_table_witness :
  run (Mcnemar.calculate_mcnemar_values
         ([Sample.graded 0 "T"; Sample.graded 1 "t"], "m1")
         ([Sample.graded 0 "T"; Sample.graded 1 "F"], "m2"))
  = (Return (Table "m1" "m2" 1 1 0 0 2), []).
Proof.
  apply (b_c_table_is_mcnemar_table _ _ _ _ _ []). vm_compute. reflexivity.
Defined.

Lemma tally_swap (m1 m2 : bool) (k : counts) :
  tally m2 m1 (swap_counts k) = swap_counts (tally m1 m2 k).
Proof. destruct m1, m2; reflexivity. Qed.

Lemma tally_from_swap (r1 : list jobject) : forall r2 k,
  tally_from (swap_counts k) (zip r2 r1) = swap_counts (tally_from k (zip r1 r2)).
Proof.
  induction r1 as [|q1 r1 IH]; intros [|q2 r2] k; try reflexivity.
  cbn [zip]. unfold tally_from in *. cbn [fold_left].
  rewrite tally_swap. apply IH.
Qed.

Lemma zip_same_question_swap (r1 : list jobject) : forall r2,
  forallb (fun '(q1, q2) => same_question q1 q2) (zip r2 r1)
  = forallb (fun '(q1, q2) => same_question q1 q2) (zip r1 r2).
Proof.
  induction r1 as [|q1 r1 IH]; intros [|q2 r2]; try reflexivity.
  cbn [zip forallb]. rewrite IH. f_equal. apply eqb_sym.
Qed.

(** X6.  Comparing the two inputs the other way round exchanges the two
    names and the counts [b] and [c] and keeps [a], [d] and the total, in
    [calculate_mcnemar.py] always and in [calculate_b_c.py] whenever it
    returns a table. *)
Theorem comparison_swaps_b_and_c
    (r1 r2 : list jobject) (name1 name2 : string) (t : table) (out : list string) :
  (run (Mcnemar.calculate_mcnemar_values (r1, name1) (r2, name2)) = (Return t, out) ->
   (run (Mcnemar.calculate_mcnemar_values (r2, name2) (r1, name1))).1
   = Return (swap_table t)) /\
  (run (BC.calculate_mcnemar_values (r1, name1) (r2, name2)) = (Return t, out) ->
   run (BC.calculate_mcnemar_values (r2, name2) (r1, name1))
   = (Return (swap_table t), [])).
Proof.
  assert (Hswap : table_of name2 name1 (tally_from (Counts 0 0 0 0) (zip r2 r1))
                  = swap_table (table_of name1 name2
                                  (tally_from (Counts 0 0 0 0) (zip r1 r2)))).
  { change (Counts 0 0 0 0) with (swap_counts (Counts 0 0 0 0)) at 1.
    rewrite tally_from_swap. unfold swap_table, table_of, swap_counts. simpl.
    f_equal. lia. }
  split.
  - unfold run. rewrite !mcnemar_values_run. intros [= <- _]. cbn [fst].
    rewrite Hswap. reflexivity.
  - intros Hbc. pose proof Hbc as Hbc'. unfold run in Hbc'.
    apply bc_values_returns in Hbc' as (Hlen & -> & _).
    rewrite (bc_values_run r1 r2 name1 name2 Hlen) in Hbc.
    rewrite (bc_values_run r2 r1 name2 name1 (eq_sym Hlen)).
    rewrite zip_same_question_swap.
    destruct (forallb _ (zip r1 r2)); [|discriminate].
    rewrite Hswap. reflexivity.
Qed.

Lemma comparison_swaps_b_and_c_witness :
  (run (Mcnemar.calculate_mcnemar_values
          ([Sample.graded 0 "F"; Sample.graded 1 "F"], "m2")
          ([Sample.graded 0 "T"; Sample.graded 1 "F"; Sample.graded 2 "T"], "m1"))).1
  = Return (Table "m2" "m1" 0 0 1 1 2) /\
  run (BC.calculate_mcnemar_values
         ([Sample.graded 0 "F"; Sample.graded 1 "F"], "m2")
         ([Sample.graded 0 "T"; Sample.graded 1 "F"], "m1"))
  = (Return (Table "m2" "m1" 0 0 1 1 2), []).
Proof.
  split.
  - destruct (comparison_swaps_b_and_c
                [Sample.graded 0 "T"; Sample.graded 1 "F"; Sample.graded 2 "T"]
                [Sample.graded 0 "F"; Sample.graded 1 "F"] "m1" "m2"
                (Table "m1" "m2" 0 1 0 1 2)
                ["warning: result count mismatch: 3 vs 2"]) as [Hm _].
    apply Hm. vm_compute. reflexivity.
  - destruct (comparison_swaps_b_and_c
                [Sample.graded 0 "T"; Sample.graded 1 "F"]
                [Sample.graded 0 "F"; Sample.graded 1 "F"] "m1" "m2"
                (Table "m1" "m2" 0 1 0 1 2) []) as [_ Hbc].
    apply Hbc. vm_compute. reflexivity.
Defined.

Lemma tally_from_same (r : list jobject) : forall k,
  n_b (tally_from k (zip r r)) = n_b k /\ n_c (tally_from k (zip r r)) = n_c k.
Proof.
  induction r as [|q r IH]; intros k; [split; reflexivity|].
  cbn [zip]. unfold tally_from in *. cbn [fold_left].
  destruct (IH (tally (is_match q) (is_match q) k)) as [Hb Hc].
  rewrite Hb, Hc. destruct (is_match q); split; reflexivity.
Qed.

(** X7.  A result list compared with itself has no discordant pair: both
    comparators return a table with [b = c = 0] and [a + d] the number of
    records, and print nothing. *)
Theorem self_comparison_has_no_discordant_pair (r : list jobject) (name1 name2 : string) :
  exists t,
    run (Mcnemar.calculate_mcnemar_values (r, name1) (r, name2)) = (Return t, []) /\
    run (BC.calculate_mcnemar_values (r, name1) (r, name2)) = (Return t, []) /\
    b t = 0%Z /\ c t = 0%Z /\ (a t + d t = Z.of_nat (length r))%Z.
Proof.
  exists (table_of name1 name2 (tally_from (Counts 0 0 0 0) (zip r r))).
  destruct (tally_from_same r (Counts 0 0 0 0)) as [Hb Hc].
  pose proof (tally_from_sum (zip r r) (Counts 0 0 0 0)) as Hsum.
  rewrite zip_length, Nat.min_id in Hsum. unfold count_sum in Hsum.
  simpl in Hb, Hc, Hsum. split; [|split].
  - unfold run. rewrite mcnemar_values_run.
    rewrite bool_decide_false by (intros Hne; apply Hne; reflexivity). reflexivity.
  - rewrite (bc_values_run r r name1 name2 eq_refl).
    replace (forallb _ (zip r r)) with true; [reflexivity|].
    symmetry. apply forallb_zip_lookup. intros i q1 q2 H1 H2.
    assert (q1 = q2) by congruence. subst q2. apply eqb_refl.
  - simpl. lia.
Qed.

Lemma collect_incorrect_filter (grade_key : string) (raw : list jobject) :
  forall acc,
    fold_left
      (fun incorrect item =>
         if bool_decide (FindFalse.grade_of grade_key item <> "T")
         then (incorrect ++ [item])%list else incorrect) raw acc
    = (acc ++ List.filter
                (fun item => bool_decide (FindFalse.grade_of grade_key item <> "T")) raw)%list.
Proof.
  induction raw as [|item raw IH]; intros acc; cbn [fold_left List.filter].
  - rewrite app_nil_r. reflexivity.
  - rewrite IH. destruct (bool_decide _); [rewrite <- app_assoc|]; reflexivity.
Qed.

Lemma grade_not_T_is_no_match (q : jobject) :
  bool_decide (FindFalse.grade_of "grade" q <> "T") = negb (is_match q).
Proof.
  unfold FindFalse.grade_of, is_match.
  destruct (decide (upper (strip (str (get q "grade" (JStr "")))) = "T")) as [H|H].
  - rewrite bool_decide_false, (bool_decide_true _ H) by (intros Hne; apply Hne, H).
    reflexivity.
  - rewrite (bool_decide_true _ H), (bool_decide_false _ H). reflexivity.
Qed.

Lemma tally_from_first_wrong (r1 : list jobject) : forall r2 k,
  length r1 = length r2 ->
  (n_c (tally_from k (zip r1 r2)) + n_d (tally_from k (zip r1 r2))
   = n_c k + n_d k
     + Z.of_nat (length (List.filter (fun q => negb (is_match q)) r1)))%Z.
Proof.
  induction r1 as [|q1 r1 IH]; intros [|q2 r2] k Hlen; try discriminate Hlen.
  - simpl. lia.
  - cbn [zip]. unfold tally_from in *. cbn [fold_left List.filter].
    rewrite IH by (simpl in Hlen; lia).
    destruct (is_match q1), (is_match q2); simpl; lia.
Qed.

(** X8.  The items [find_false_questions.py] extracts from a graded file
    are those the comparator counts as wrong for that file: when two files
    of the same length are compared, [c + d] is the number of items
    extracted from the first and [b + d] the number extracted from the
    second. *)
Theorem incorrect_items_are_the_wrong_counts
    (r1 r2 : list jobject) (name1 name2 : string) (t : table) (out : list string) :
  length r1 = length r2 ->
  run (Mcnemar.calculate_mcnemar_values (r1, name1) (r2, name2)) = (Return t, out) ->
  (c t + d t = Z.of_nat (length (FindFalse.collect_incorrect "grade" r1)))%Z /\
  (b t + d t = Z.of_nat (length (FindFalse.collect_incorrect "grade" r2)))%Z.
Proof.
  intros Hlen Hrun.
  assert (Hcount : forall r, FindFalse.collect_incorrect "grade" r
                             = List.filter (fun q => negb (is_match q)) r).
  { intros r. unfold FindFalse.collect_incorrect.
    rewrite collect_incorrect_filter. simpl.
    apply filter_ext. intros q. apply grade_not_T_is_no_match. }
  unfold run in Hrun. rewrite mcnemar_values_run in Hrun.
  injection Hrun as <- _.
  rewrite !Hcount. split.
  - pose proof (tally_from_first_wrong r1 r2 (Counts 0 0 0 0) Hlen) as H.
    simpl in *. lia.
  - pose proof (tally_from_first_wrong r2 r1 (Counts 0 0 0 0) (eq_sym Hlen)) as H.
    change (Counts 0 0 0 0) with (swap_counts (Counts 0 0 0 0)) in H.
    rewrite tally_from_swap in H. simpl in *. lia.
Qed.

Lemma incorrect_items_are_the_wrong_counts_witness :
  length (FindFalse.collect_incorrect "grade"
            [Sample.graded 0 "T"; Sample.graded 1 "F"; Sample.graded 2 " t "]) = 1 /\
  length (FindFalse.collect_incorrect "grade"
            [Sample.graded 0 "F"; Sample.graded 1 "F"; Sample.graded 2 "T"]) = 2.
Proof.
  destruct (incorrect_items_are_the_wrong_counts
              [Sample.graded 0 "T"; Sample.graded 1 "F"; Sample.graded 2 " t "]
              [Sample.graded 0 "F"; Sample.graded 1 "F"; Sample.graded 2 "T"]
              "m1" "m2" (Table "m1" "m2" 1 1 0 1 3) [] eq_refl)
    as [H1 H2]; [vm_compute; reflexivity|].
  simpl in H1, H2. split; lia.
Defined.

Lemma tally_from_grades (r1 : list jobject) : forall r2 k,
  tally_from k (zip r1 r2)
  = fold_left
      (fun k '(g1, g2) =>
         tally (bool_decide (upper (strip (str (default (JStr "") g1))) = "T"))
               (bool_decide (upper (strip (str (default (JStr "") g2))) = "T")) k)
      (zip (grades r1) (grades r2)) k.
Proof.
  induction r1 as [|q1 r1 IH]; intros [|q2 r2] k; try reflexivity.
  unfold tally_from in *. cbn [zip grades map fold_left]. apply IH.
Qed.

(** X23.  The table and the printed lines of [calculate_mcnemar.py] depend
    on the [grade] entries alone: two pairs of inputs with the same grades
    at the same places give the same result, whatever else the records
    hold, their [question_num] included. *)
Theorem mcnemar_reads_grades_only
    (r1 r2 r1' r2' : list jobject) (name1 name2 : string) :
  grades r1 = grades r1' -> grades r2 = grades r2' ->
  run (Mcnemar.calculate_mcnemar_values (r1, name1) (r2, name2))
  = run (Mcnemar.calculate_mcnemar_values (r1', name1) (r2', name2)).
Proof.
  intros H1 H2. unfold run. rewrite !mcnemar_values_run, !tally_from_grades, H1, H2.
  assert (Hlen1 : length r1 = length r1')
    by (rewrite <- (length_map (fun q : jobject => q !! "grade") r1),
                <- (length_map (fun q : jobject => q !! "grade") r1');
        f_equal; exact H1).
  assert (Hlen2 : length r2 = length r2')
    by (rewrite <- (length_map (fun q : jobject => q !! "grade") r2),
                <- (length_map (fun q : jobject => q !! "grade") r2');
        f_equal; exact H2).
  unfold mismatch_warning, len_text. rewrite Hlen1, Hlen2. reflexivity.
Qed.

Lemma mcnemar_reads_grades_only_witness :
  run (Mcnemar.calculate_mcnemar_values
         ([Sample.graded 0 "T"; Sample.graded 1 "F"], "m1")
         ([Sample.graded 0 "F"], "m2"))
  = run (Mcnemar.calculate_mcnemar_values
           ([Sample.graded 5 "T"; <["grade" := JStr "F"]> ∅], "m1")
           ([Sample.graded 9 "F"], "m2")).
Proof.
  apply mcnemar_reads_grades_only; vm_compute; reflexivity.
Defined.

End ComparatorMore.

(* ===================================================================== *)
(** * More on the dominance test                                          *)
(* ===================================================================== *)

Section FrontierMore.
Import Py Pareto.

Lemma flag_true_iff (models : list run_point) (i : nat) (x : run_point) :
  models !! i = Some x ->
  is_pareto_optimal models !! i = Some true <-> ~ dominated_in models i x.
Proof.
  intros Hx. rewrite lookup_is_pareto_optimal, Hx. simpl.
  rewrite <- inner_loop_dominated.
  destruct (inner_loop i x (enumerate models)); simpl; split; congruence.
Qed.

Lemma flag_false_iff (models : list run_point) (i : nat) (x : run_point) :
  models !! i = Some x ->
  is_pareto_optimal models !! i = Some false <-> dominated_in models i x.
Proof.
  intros Hx. rewrite lookup_is_pareto_optimal, Hx. simpl.
  rewrite <- inner_loop_dominated.
  destruct (inner_loop i x (enumerate models)); simpl; split; congruence.
Qed.

(** A list of points that is not empty has a cheapest point. *)
Lemma cheapest_exists (l : list run_point) :
  l <> [] ->
  exists x, x ∈ l /\ forall y, y ∈ l -> (gpu_hours x <= gpu_hours y)%Q.
Proof.
  induction l as [|x l IH]; [congruence|]. intros _.
  destruct l as [|x' l].
  - exists x. split; [left|]. intros y Hy.
    apply list_elem_of_singleton in Hy. subst y. apply Qle_refl.
  - destruct (IH ltac:(discriminate)) as (m & Hm & Hmin).
    destruct (Qlt_le_dec (gpu_hours x) (gpu_hours m)) as [Hlt|Hle].
    + exists x. split; [left|]. intros y Hy.
      apply elem_of_cons in Hy as [->|Hy]; [apply Qle_refl|].
      eapply Qle_trans; [apply Qlt_le_weak, Hlt | apply Hmin, Hy].
    + exists m. split; [right; exact Hm|]. intros y Hy.
      apply elem_of_cons in Hy as [->|Hy]; [exact Hle | apply Hmin, Hy].
Qed.

(** X9.  A point that no point of the group undercuts in GPU hours is
    flagged optimal, and so is a point that no point of the group exceeds in
    accuracy. *)
Theorem cheapest_and_most_accurate_are_optimal
    (models : list run_point) (i : nat) (x : run_point) :
  models !! i = Some x ->
  (forall y, y ∈ models -> (gpu_hours x <= gpu_hours y)%Q) \/
  (forall y, y ∈ models -> (accuracy y <= accuracy x)%Q) ->
  is_pareto_optimal models !! i = Some true.
Proof.
  intros Hx Hbest. apply (flag_true_iff models i x Hx).
  intros (j & y & _ & Hy & Hg & Ha).
  assert (Hin : y ∈ models) by (apply list_elem_of_lookup; eauto).
  destruct Hbest as [Hmin|Hmax].
  - apply (Qlt_irrefl (gpu_hours y)).
    eapply Qlt_le_trans; [exact Hg | apply Hmin, Hin].
  - apply (Qlt_irrefl (accuracy x)).
    eapply Qlt_le_trans; [exact Ha | apply Hmax, Hin].
Qed.

Lemma cheapest_and_most_accurate_are_optimal_witness :
  is_pareto_optimal [RunPoint "a" 2 50; RunPoint "b" 1 40; RunPoint "c" 3 45] !! 1
  = Some true.
Proof.
  apply (cheapest_and_most_accurate_are_optimal
           [RunPoint "a" 2 50; RunPoint "b" 1 40; RunPoint "c" 3 45]
           1 (RunPoint "b" 1 40) eq_refl).
  left. intros y Hy.
  repeat (apply elem_of_cons in Hy as [->|Hy]; [unfold Qle; simpl; lia|]).
  inversion Hy.
Defined.

(** X10.  In a group that is not empty some point is flagged optimal. *)
Theorem nonempty_group_has_optimal_point (models : list run_point) :
  models <> [] ->
  exists i, is_pareto_optimal models !! i = Some true.
Proof.
  intros Hne. destruct (cheapest_exists models Hne) as (x & Hin & Hmin).
  apply list_elem_of_lookup in Hin as [i Hi]. exists i.
  apply (flag_true_iff models i x Hi).
  intros (j & y & _ & Hy & Hg & _).
  apply (Qlt_irrefl (gpu_hours y)).
  eapply Qlt_le_trans; [exact Hg|]. apply Hmin, list_elem_of_lookup. eauto.
Qed.

Lemma nonempty_group_has_optimal_point_witness :
  exists i, is_pareto_optimal [RunPoint "a" 2 50; RunPoint "b" 2 50] !! i = Some true.
Proof.
  apply nonempty_group_has_optimal_point. discriminate.
Defined.

(** X11.  Along the optimal points accuracy never falls as cost rises: of
    two points flagged optimal, the one with strictly fewer GPU hours has
    at most the accuracy of the other. *)
Theorem frontier_accuracy_rises_with_cost
    (models : list run_point) (i j : nat) (x y : run_point) :
  models !! i = Some x -> models !! j = Some y ->
  is_pareto_optimal models !! i = Some true ->
  is_pareto_optimal models !! j = Some true ->
  (gpu_hours x < gpu_hours y)%Q ->
  (accuracy x <= accuracy y)%Q.
Proof.
  intros Hx Hy _ Hj Hcost. apply (flag_true_iff models j y Hy) in Hj.
  destruct (Qlt_le_dec (accuracy y) (accuracy x)) as [Hacc|Hacc]; [|exact Hacc].
  exfalso. apply Hj. exists i, x. split; [|auto].
  intros ->. assert (x = y) by congruence. subst y.
  exact (Qlt_irrefl _ Hcost).
Qed.

Lemma frontier_accuracy_rises_with_cost_witness :
  (accuracy (RunPoint "a" 1 50) <= accuracy (RunPoint "b" 2 80))%Q.
Proof.
  apply (frontier_accuracy_rises_with_cost
           [RunPoint "a" 1 50; RunPoint "b" 2 80; RunPoint "c" 3 70] 0 1);
    vm_compute; reflexivity.
Defined.

(** X12.  A point that is not flagged optimal is beaten by one that is:
    some point flagged optimal has strictly fewer GPU hours and strictly
    higher accuracy. *)
Theorem dominated_point_has_optimal_dominator
    (models : list run_point) (i : nat) (x : run_point) :
  models !! i = Some x ->
  is_pareto_optimal models !! i = Some false ->
  exists j y,
    models !! j = Some y /\ is_pareto_optimal models !! j = Some true /\
    (gpu_hours y < gpu_hours x)%Q /\ (accuracy x < accuracy y)%Q.
Proof.
  intros Hx Hflag. apply (flag_false_iff models i x Hx) in Hflag.
  destruct Hflag as (j0 & y0 & _ & Hy0 & Hg0 & Ha0).
  set (better := List.filter (fun y => dominates y x) models).
  assert (Hbetter : forall y, y ∈ better <->
            y ∈ models /\ (gpu_hours y < gpu_hours x)%Q /\ (accuracy x < accuracy y)%Q).
  { intros y. unfold better. rewrite list_elem_of_In, filter_In, dominates_spec,
      <- list_elem_of_In. reflexivity. }
  assert (Hne : better <> []).
  { intros Hnil. assert (Hin : y0 ∈ better).
    { apply Hbetter. split; [apply list_elem_of_lookup; eauto|auto]. }
    rewrite Hnil in Hin. inversion Hin. }
  destruct (cheapest_exists better Hne) as (y & Hin & Hmin).
  apply Hbetter in Hin as (Hym & Hg & Ha).
  apply list_elem_of_lookup in Hym as [j Hj].
  exists j, y. split; [exact Hj|]. split; [|auto].
  apply (flag_true_iff models j y Hj).
  intros (k & z & _ & Hz & Hzg & Hza).
  assert (Hzin : z ∈ better).
  { apply Hbetter. split; [apply list_elem_of_lookup; eauto|]. split.
    - eapply Qlt_trans; eassumption.
    - eapply Qlt_trans; eassumption. }
  apply (Qlt_irrefl (gpu_hours z)).
  eapply Qlt_le_trans; [exact Hzg | apply Hmin, Hzin].
Qed.

Lemma dominated_point_has_optimal_dominator_witness :
  exists j y,
    [RunPoint "a" 1 50; RunPoint "b" 2 45; RunPoint "c" 3 40] !! j = Some y /\
    is_pareto_optimal [RunPoint "a" 1 50; RunPoint "b" 2 45; RunPoint "c" 3 40] !! j
    = Some true /\
    (gpu_hours y < 3)%Q /\ (40 < accuracy y)%Q.
Proof.
  apply (dominated_point_has_optimal_dominator
           [RunPoint "a" 1 50; RunPoint "b" 2 45; RunPoint "c" 3 40] 2
           (RunPoint "c" 3 40)); vm_compute; reflexivity.
Defined.

(** X13.  Taking any point out of the group never costs another point its
    flag: a point flagged optimal in the group is flagged optimal in the
    group without the point at index [k]. *)
Theorem removal_keeps_optimal_points (models : list run_point) (k i : nat) :
  is_pareto_optimal models !! lift k i = Some true ->
  is_pareto_optimal (delete k models) !! i = Some true.
Proof.
  intros Hflag.
  destruct (models !! lift k i) as [x|] eqn:Hx.
  - apply (flag_true_iff models (lift k i) x Hx) in Hflag.
    apply (flag_true_iff (delete k models) i x);
      [rewrite lookup_delete_lift; exact Hx|].
    intros (j & y & Hji & Hy & Hg & Ha). apply Hflag.
    exists (lift k j), y. rewrite lookup_delete_lift in Hy.
    split; [intros Heq; apply Hji, (lift_inj k), Heq|]. auto.
  - rewrite lookup_is_pareto_optimal, Hx in Hflag. discriminate.
Qed.

Lemma removal_keeps_optimal_points_witness :
  is_pareto_optimal [RunPoint "b" 2 80; RunPoint "c" 3 70] !! 0 = Some true.
Proof.
  apply (removal_keeps_optimal_points
           [RunPoint "a" 1 50; RunPoint "b" 2 80; RunPoint "c" 3 70] 0 0).
  vm_compute. reflexivity.
Defined.

(** X14.  The flag of a point depends on its GPU hours and accuracy alone:
    two entries of the group with the same GPU hours and the same accuracy
    carry the same flag. *)
Theorem equal_points_have_equal_flags
    (models : list run_point) (i j : nat) (x y : run_point) :
  models !! i = Some x -> models !! j = Some y ->
  (gpu_hours x == gpu_hours y)%Q -> (accuracy x == accuracy y)%Q ->
  is_pareto_optimal models !! i = is_pareto_optimal models !! j.
Proof.
  intros Hx Hy Hg Ha.
  assert (Hiff : dominated_in models i x <-> dominated_in models j y).
  { split; intros (k & z & _ & Hz & Hzg & Hza).
    - exists k, z. rewrite Hg in Hzg. rewrite Ha in Hza. split; [|auto].
      intros ->. assert (z = y) by congruence. subst z.
      exact (Qlt_irrefl _ Hzg).
    - exists k, z. rewrite <- Hg in Hzg. rewrite <- Ha in Hza. split; [|auto].
      intros ->. assert (z = x) by congruence. subst z.
      exact (Qlt_irrefl _ Hzg). }
  rewrite !lookup_is_pareto_optimal, Hx, Hy. simpl. do 2 f_equal.
  apply eq_true_iff_eq. rewrite !inner_loop_dominated. exact Hiff.
Qed.

Lemma equal_points_have_equal_flags_witness :
  is_pareto_optimal [RunPoint "a" 1 50; RunPoint "b" 2 40; RunPoint "c" (4 # 2) 40] !! 1
  = is_pareto_optimal [RunPoint "a" 1 50; RunPoint "b" 2 40; RunPoint "c" (4 # 2) 40] !! 2.
Proof.
  apply (equal_points_have_equal_flags _ 1 2 (RunPoint "b" 2 40) (RunPoint "c" (4 # 2) 40));
    reflexivity.
Defined.

End FrontierMore.

(* ===================================================================== *)
(** * Names of models and files                                           *)
(* ===================================================================== *)

Section NamesMore.
Import Py PyText EvaluateNames Names Further.
Local Open Scope string_scope.

Lemma str_take_drop (s : string) : forall n, str_take n s ++ str_drop n s = s.
Proof.
  induction s as [|ch s IH]; intros [|n]; try reflexivity.
  cbn [str_take str_drop]. rewrite app_cons, IH. reflexivity.
Qed.

Lemma str_drop_app (a b : string) : str_drop (String.length a) (a ++ b) = b.
Proof.
  induction a as [|ch a IH]; [destruct b; reflexivity|].
  rewrite app_cons. cbn [String.length str_drop]. exact IH.
Qed.

Lemma str_take_app (a b : string) : str_take (String.length a) (a ++ b) = a.
Proof.
  induction a as [|ch a IH]; [destruct b; reflexivity|].
  rewrite app_cons. cbn [String.length str_take]. rewrite IH. reflexivity.
Qed.

Lemma has_char_app (c : ascii) (a b : string) :
  has_char c (a ++ b) = has_char c a || has_char c b.
Proof.
  induction a as [|ch a IH]; [reflexivity|].
  rewrite app_cons. cbn [has_char]. rewrite IH, orb_assoc. reflexivity.
Qed.

Lemma rfind_lower_bound (c : ascii) (s : string) : (-1 <= rfind c s)%Z.
Proof.
  induction s as [|ch s IH]; cbn [rfind]; [lia|].
  destruct (Z.ltb_spec (rfind c s) 0); [destruct (Ascii.eqb ch c)|]; lia.
Qed.

Lemma rfind_none (c : ascii) (s : string) :
  rfind c s = (-1)%Z <-> has_char c s = false.
Proof.
  induction s as [|ch s IH]; cbn [rfind has_char]; [tauto|].
  pose proof (rfind_lower_bound c s) as Hlow.
  destruct (Z.ltb_spec (rfind c s) 0) as [Hneg|Hpos].
  - assert (Hnone : rfind c s = (-1)%Z) by lia. apply IH in Hnone.
    rewrite Hnone, orb_false_r. destruct (Ascii.eqb ch c); split; congruence.
  - rewrite orb_false_iff. split; [lia|]. intros [_ Hs]. apply IH in Hs. lia.
Qed.

(** Where [rfind] finds the character, the text splits there and the
    character does not come again. *)
Lemma rfind_found (c : ascii) (s : string) :
  (0 <= rfind c s)%Z ->
  exists before after,
    s = before ++ String c after /\ has_char c after = false /\
    rfind c s = Z.of_nat (String.length before).
Proof.
  induction s as [|ch s IH]; cbn [rfind]; [lia|].
  destruct (Z.ltb_spec (rfind c s) 0) as [Hneg|Hpos].
  - destruct (Ascii.eqb_spec ch c) as [->|Hne]; [intros _|lia].
    exists "", s. split; [reflexivity|]. split; [|reflexivity].
    apply rfind_none. pose proof (rfind_lower_bound c s). lia.
  - intros _. destruct (IH Hpos) as (before & after & -> & Hafter & Hidx).
    exists (String ch before), after. split; [reflexivity|]. split; [exact Hafter|].
    rewrite Hidx. cbn [String.length]. lia.
Qed.

Lemma rfind_app_last (c : ascii) (before after : string) :
  has_char c after = false ->
  rfind c (before ++ String c after) = Z.of_nat (String.length before).
Proof.
  intros Hafter. induction before as [|ch before IH].
  - rewrite app_nil. cbn [rfind]. apply rfind_none in Hafter. rewrite Hafter.
    rewrite Ascii.eqb_refl. reflexivity.
  - rewrite app_cons. cbn [rfind]. rewrite IH.
    destruct (Z.ltb_spec (Z.of_nat (String.length before)) 0); [lia|].
    cbn [String.length]. lia.
Qed.

(** X15.  [_sanitize_filename_component] returns what follows the last
    slash: the name is a directory part, empty or ending in a slash,
    followed by the result, and the result holds no slash; a name without
    a slash is returned as it is. *)
Theorem sanitized_component_has_no_slash (name : string) :
  has_char "/" (_sanitize_filename_component name) = false /\
  (exists dir, name = dir ++ _sanitize_filename_component name /\
               (dir = "" \/ exists parent, dir = parent ++ "/")) /\
  (has_char "/" name = false -> _sanitize_filename_component name = name).
Proof.
  unfold _sanitize_filename_component, slice_from.
  pose proof (rfind_lower_bound "/" name) as Hlow.
  destruct (Z.ltb_spec (rfind "/" name + 1) 0) as [Hneg|Hpos]; [lia|].
  destruct (Z.eq_dec (rfind "/" name) (-1)%Z) as [Hnone|Hsome].
  - rewrite Hnone.
    assert (Hall : str_drop (Z.to_nat (-1 + 1)) name = name)
      by (destruct name; reflexivity).
    rewrite Hall.
    apply rfind_none in Hnone. split; [exact Hnone|]. split; [|auto].
    exists "". split; [reflexivity|auto].
  - destruct (rfind_found "/" name ltac:(lia)) as (before & after & Hname & Hafter & Hidx).
    assert (Hres : str_drop (Z.to_nat (rfind "/" name + 1)) name = after).
    { rewrite Hidx.
      replace (Z.to_nat (Z.of_nat (String.length before) + 1))
        with (String.length (before ++ "/")) by (rewrite length_app; simpl; lia).
      rewrite Hname.
      change (before ++ String "/" after) with (before ++ "/" ++ after).
      rewrite <- (string_app_assoc before "/" after).
      apply str_drop_app. }
    rewrite Hres. split; [exact Hafter|]. split.
    + exists (before ++ "/"). split; [|right; eauto].
      rewrite string_app_assoc. exact Hname.
    + intros Hno. rewrite Hname, has_char_app in Hno. cbn [has_char] in Hno.
      rewrite Ascii.eqb_refl, orb_true_r in Hno. discriminate.
Qed.

Lemma str_length_nonempty (s : string) : s <> "" -> 0 < String.length s.
Proof. destruct s; [congruence | simpl; lia]. Qed.

(** One round of the loops over the suffixes, on a stem made of a model
    name and three more characters. *)
Lemma suffix_test (model tail cand : string) :
  model <> "" -> String.length tail = 3 -> String.length cand = 3 ->
  endswith (model ++ tail) cand
  && (String.length cand <? String.length (model ++ tail))%nat
  = String.eqb tail cand.
Proof.
  intros Hmodel Htail Hcand. apply str_length_nonempty in Hmodel.
  unfold endswith. rewrite length_app, Htail, Hcand.
  replace (String.length model + 3 - 3) with (String.length model) by lia.
  rewrite str_drop_app.
  replace (3 <=? String.length model + 3)%nat with true
    by (symmetry; apply Nat.leb_le; lia).
  replace (3 <? String.length model + 3)%nat with true
    by (symmetry; apply Nat.ltb_lt; lia).
  rewrite andb_true_r. reflexivity.
Qed.

Lemma slice_off_suffix (model tail : string) (n : nat) :
  String.length tail = n -> 0 < n ->
  slice_until (model ++ tail) (- Z.of_nat n) = model.
Proof.
  intros Htail Hn. unfold slice_until.
  destruct (Z.ltb_spec (- Z.of_nat n) 0); [|lia].
  rewrite Z.opp_involutive, Nat2Z.id, length_app, Htail.
  replace (String.length model + n - n) with (String.length model) by lia.
  apply str_take_app.
Qed.

Lemma endswith_true (s suffix : string) :
  endswith s suffix = true ->
  s = str_take (String.length s - String.length suffix) s ++ suffix
  /\ String.length suffix <= String.length s.
Proof.
  unfold endswith. intros H. apply andb_true_iff in H as [Hlen Heq].
  apply Nat.leb_le in Hlen. apply String.eqb_eq in Heq. split; [|exact Hlen].
  transitivity (str_take (String.length s - String.length suffix) s
                ++ str_drop (String.length s - String.length suffix) s).
  - symmetry. apply str_take_drop.
  - f_equal. exact Heq.
Qed.

Ltac eval_eqb :=
  repeat match goal with
  | |- context [String.eqb ?a ?b] =>
      let v := eval vm_compute in (String.eqb a b) in
      change (String.eqb a b) with v; cbv iota
  end.

Ltac try_suffixes Hmodel :=
  repeat (rewrite suffix_test by (exact Hmodel || reflexivity); eval_eqb).

(** X16.  A stem built from a model name that is not empty, one of the
    separators [_], [-], [:] and one of the languages [en], [no] is taken
    apart again: [split_model_lang] gives back the model and the language,
    [load_log] takes the model for [model_base], and [_has_lang_suffix]
    puts the run in the group of that language. *)
Theorem stem_round_trip (model sep lang : string) :
  model <> "" -> sep ∈ SEPS -> lang ∈ LANGS ->
  split_model_lang (model ++ sep ++ lang) = Some (model, lang) /\
  model_base_of (model ++ sep ++ lang) = model /\
  _has_lang_suffix (model ++ sep ++ lang) lang = true.
Proof.
  intros Hmodel Hsep Hlang. unfold SEPS, LANGS in Hsep, Hlang.
  assert (Hcut : forall tail, String.length tail = 3 ->
            slice_until (model ++ tail) (- Z.of_nat 3) = model)
    by (intros tail Htail; apply slice_off_suffix; [exact Htail|lia]).
  assert (Hends : forall tail, endswith (model ++ tail) tail = true).
  { intros tail. unfold endswith. rewrite length_app.
    replace (String.length model + String.length tail - String.length tail)
      with (String.length model) by lia.
    rewrite str_drop_app, String.eqb_refl, andb_true_r. apply Nat.leb_le. lia. }
  repeat (apply elem_of_cons in Hsep as [->|Hsep]);
    [| | |inversion Hsep];
    (repeat (apply elem_of_cons in Hlang as [->|Hlang]); [| |inversion Hlang]);
    (split; [|split]);
    try (unfold split_model_lang, LANGS; cbn [split_over]; unfold SEPS;
         cbn [split_with]; try_suffixes Hmodel;
         change (String.length (_ ++ _)) with 3; rewrite Hcut by reflexivity;
         reflexivity);
    try (unfold model_base_of, LANGS; cbn [base_over]; unfold SEPS;
         cbn [base_with]; try_suffixes Hmodel;
         change (String.length (_ ++ _)) with 3; rewrite Hcut by reflexivity;
         reflexivity);
    try (unfold _has_lang_suffix, SEPS; cbn [existsb];
         rewrite Hends, ?orb_true_r; reflexivity).
Qed.

Lemma stem_round_trip_witness :
  split_model_lang ("llama3.1:8b" ++ "-" ++ "no") = Some ("llama3.1:8b", "no") /\
  model_base_of ("llama3.1:8b" ++ "-" ++ "no") = "llama3.1:8b".
Proof.
  destruct (stem_round_trip "llama3.1:8b" "-" "no") as (Hsplit & Hbase & _).
  - discriminate.
  - unfold SEPS. right. left.
  - unfold LANGS. right. left.
  - split; assumption.
Defined.

Lemma str_take_nonempty (s : string) (n : nat) :
  0 < n -> 0 < String.length s -> str_take n s <> "".
Proof.
  destruct n, s; simpl; try lia. discriminate.
Qed.

(** A suffix that passes the test of the loops is cut off cleanly. *)
Lemma candidate_sound (stem suffix : string) :
  0 < String.length suffix ->
  endswith stem suffix && (String.length suffix <? String.length stem)%nat = true ->
  stem = slice_until stem (- Z.of_nat (String.length suffix)) ++ suffix /\
  slice_until stem (- Z.of_nat (String.length suffix)) <> "".
Proof.
  intros Hpos Htest. apply andb_true_iff in Htest as [Hends Hlen].
  apply Nat.ltb_lt in Hlen. apply endswith_true in Hends as [Hsplit _].
  unfold slice_until. destruct (Z.ltb_spec (- Z.of_nat (String.length suffix)) 0); [|lia].
  rewrite Z.opp_involutive, Nat2Z.id. split; [exact Hsplit|].
  apply str_take_nonempty; lia.
Qed.

Lemma split_with_sound (stem lang : string) (seps : list string) :
  (forall sep, sep ∈ seps -> 0 < String.length (sep ++ lang)) ->
  forall m l,
    split_with stem lang seps = Some (m, l) ->
    l = lang /\ m <> "" /\ exists sep, sep ∈ seps /\ stem = m ++ sep ++ lang.
Proof.
  induction seps as [|sep seps IH]; intros Hpos m l; cbn [split_with]; [discriminate|].
  destruct (endswith stem (sep ++ lang) && _) eqn:Htest.
  - intros [= <- <-].
    destruct (candidate_sound stem (sep ++ lang) (Hpos sep ltac:(left)) Htest)
      as [Hsplit Hne].
    split; [reflexivity|]. split; [exact Hne|]. exists sep. split; [left|exact Hsplit].
  - intros Hrest. destruct (IH (fun sep' Hin => Hpos sep' ltac:(right; exact Hin)) m l Hrest)
      as (-> & Hne & sep' & Hin & Hsplit).
    split; [reflexivity|]. split; [exact Hne|]. exists sep'. split; [right; exact Hin|exact Hsplit].
Qed.

Lemma base_with_split_with (stem lang : string) (seps : list string) :
  base_with stem lang seps = fst <$> split_with stem lang seps.
Proof.
  induction seps as [|sep seps IH]; cbn [base_with split_with]; [reflexivity|].
  destruct (endswith stem (sep ++ lang) && _); [reflexivity|exact IH].
Qed.

Lemma base_over_split_over (stem : string) (langs : list string) (dflt : string) :
  base_over stem langs dflt
  = match split_over stem langs with
    | Some (m, _) => m
    | None => dflt
    end.
Proof.
  induction langs as [|lang langs IH]; cbn [base_over split_over]; [reflexivity|].
  rewrite base_with_split_with.
  destruct (split_with stem lang SEPS) as [[m l]|]; [reflexivity|exact IH].
Qed.

(** X17.  Whatever [split_model_lang] returns is a true splitting of the
    stem: the model is not empty, the language is [en] or [no], and the
    stem is the model, one of the three separators and the language; and
    [model_base] of [load_log] is that model, or the whole stem where
    [split_model_lang] returns [None]. *)
Theorem split_model_lang_sound (stem : string) :
  (forall m l, split_model_lang stem = Some (m, l) ->
     m <> "" /\ l ∈ LANGS /\ exists sep, sep ∈ SEPS /\ stem = m ++ sep ++ l) /\
  model_base_of stem
  = match split_model_lang stem with
    | Some (m, _) => m
    | None => stem
    end.
Proof.
  split; [|apply base_over_split_over].
  assert (Hpos : forall lang sep, sep ∈ SEPS -> 0 < String.length (sep ++ lang)).
  { intros lang sep Hsep. unfold SEPS in Hsep.
    repeat (apply elem_of_cons in Hsep as [->|Hsep]); [| | |inversion Hsep];
      rewrite length_app; simpl; lia. }
  intros m l. unfold split_model_lang, LANGS. cbn [split_over].
  destruct (split_with stem "en" SEPS) as [[m1 l1]|] eqn:Hen.
  - intros [= -> ->].
    destruct (split_with_sound stem "en" SEPS (Hpos "en") m l Hen) as (-> & Hne & Hsep).
    split; [exact Hne|]. split; [left|exact Hsep].
  - destruct (split_with stem "no" SEPS) as [[m2 l2]|] eqn:Hno; [|discriminate].
    intros [= -> ->].
    destruct (split_with_sound stem "no" SEPS (Hpos "no") m l Hno) as (-> & Hne & Hsep).
    split; [exact Hne|]. split; [right; left|exact Hsep].
Qed.

Lemma split_model_lang_sound_witness :
  "qwen3:8b" <> "" /\ "qwen3:8b:en" = "qwen3:8b" ++ ":" ++ "en" /\
  model_base_of "en" = "en".
Proof.
  destruct (split_model_lang_sound "qwen3:8b:en") as [Hsound _].
  destruct (Hsound "qwen3:8b" "en" ltac:(vm_compute; reflexivity))
    as (Hne & _ & _).
  destruct (split_model_lang_sound "en") as [_ Hbase].
  split; [exact Hne|]. split; [reflexivity|]. rewrite Hbase. reflexivity.
Defined.

(** X18.  No run is put into both language groups: a name with an [en]
    suffix has no [no] suffix. *)
Theorem language_groups_are_disjoint (name : string) :
  _has_lang_suffix name "en" = true -> _has_lang_suffix name "no" = false.
Proof.
  unfold _has_lang_suffix, SEPS. cbn [existsb]. unfold endswith.
  change (String.length (_ ++ "en")) with 3.
  change (String.length (_ ++ "no")) with 3.
  destruct (3 <=? String.length name)%nat; [|discriminate].
  cbn [andb]. rewrite !orb_false_r.
  set (tail := str_drop (String.length name - 3) name).
  destruct (String.eqb_spec tail ("_" ++ "en")) as [->|_];
    [intros _; vm_compute; reflexivity|].
  destruct (String.eqb_spec tail ("-" ++ "en")) as [->|_];
    [intros _; vm_compute; reflexivity|].
  destruct (String.eqb_spec tail (":" ++ "en")) as [->|_];
    [intros _; vm_compute; reflexivity|].
  discriminate.
Qed.

Lemma language_groups_are_disjoint_witness :
  _has_lang_suffix "gemma3:4b_en" "no" = false.
Proof.
  apply language_groups_are_disjoint. vm_compute. reflexivity.
Defined.

Lemma first_family_cases (families : list string) (name_lower : string) :
  (first_family families name_lower = "other" /\
   forall f, f ∈ families -> Evaluate.occurs f name_lower = false) \/
  (exists before f after,
     families = (before ++ f :: after)%list /\
     first_family families name_lower = f /\
     Evaluate.occurs f name_lower = true /\
     forall g, g ∈ before -> Evaluate.occurs g name_lower = false).
Proof.
  induction families as [|f families IH]; cbn [first_family].
  - left. split; [reflexivity|]. intros f Hf. inversion Hf.
  - destruct (Evaluate.occurs f name_lower) eqn:Hocc.
    + right. exists [], f, families. split; [reflexivity|]. split; [reflexivity|].
      split; [exact Hocc|]. intros g Hg. inversion Hg.
    + destruct IH as [[Hother Hnone]|(before & g & after & -> & Hres & Hg & Hbefore)].
      * left. split; [exact Hother|]. intros g Hg.
        apply elem_of_cons in Hg as [->|Hg]; [exact Hocc | apply Hnone, Hg].
      * right. exists (f :: before), g, after. split; [reflexivity|].
        split; [exact Hres|]. split; [exact Hg|]. intros h Hh.
        apply elem_of_cons in Hh as [->|Hh]; [exact Hocc | apply Hbefore, Hh].
Qed.

(** X19.  [get_model_family] answers ["other"] exactly when none of the
    nine family names occurs in the lower-cased model name; otherwise it
    answers a family name that occurs there, the first such in the order of
    the table. *)
Theorem model_family_is_first_match (model_name : string) :
  (get_model_family model_name = "other" <->
   forall f, f ∈ FAMILY_KEYS -> Evaluate.occurs f (Evaluate.lower model_name) = false) /\
  (get_model_family model_name <> "other" ->
   exists before after,
     FAMILY_KEYS = (before ++ get_model_family model_name :: after)%list /\
     Evaluate.occurs (get_model_family model_name) (Evaluate.lower model_name) = true /\
     forall g, g ∈ before -> Evaluate.occurs g (Evaluate.lower model_name) = false).
Proof.
  unfold get_model_family.
  destruct (first_family_cases FAMILY_KEYS (Evaluate.lower model_name))
    as [[Hother Hnone]|(before & f & after & Hkeys & Hres & Hf & Hbefore)].
  - rewrite Hother. split; [tauto|congruence].
  - rewrite Hres. split.
    + split.
      * intros ->. exfalso.
        assert (Hin : "other" ∈ FAMILY_KEYS)
          by (rewrite Hkeys; apply elem_of_app; right; left).
        revert Hin. clear. unfold FAMILY_KEYS. intros Hin.
        repeat (apply elem_of_cons in Hin as [Hin|Hin]; [discriminate Hin|]).
        inversion Hin.
      * intros Hnone. rewrite Hnone in Hf; [discriminate|].
        rewrite Hkeys. apply elem_of_app. right. left.
    + intros _. exists before, after. auto.
Qed.

Lemma string_app_inv_head (a b c : string) : a ++ b = a ++ c -> b = c.
Proof.
  induction a as [|ch a IH]; [rewrite !app_nil; auto|].
  rewrite !app_cons. intros [= H]. apply IH, H.
Qed.

(** X20.  The new name [sanitize_names.py] gives a file is the old one
    with its last hyphen turned into an underscore: it has the same length
    and is never the old name again; a name without a hyphen gets none. *)
Theorem new_name_replaces_last_hyphen (name : string) :
  (has_char "-" name = false -> new_name_of name = None) /\
  (forall before after,
     name = before ++ "-" ++ after -> has_char "-" after = false ->
     new_name_of name = Some (before ++ "_" ++ after) /\
     String.length (before ++ "_" ++ after) = String.length name /\
     before ++ "_" ++ after <> name).
Proof.
  unfold new_name_of. split.
  - intros Hno. apply rfind_none in Hno. rewrite Hno. reflexivity.
  - intros before after -> Hafter.
    change (before ++ "-" ++ after) with (before ++ String "-" after).
    rewrite (rfind_app_last "-" before after Hafter).
    destruct (Z.eqb_spec (Z.of_nat (String.length before)) (-1)); [lia|].
    assert (Htake : slice_until (before ++ String "-" after)
                      (Z.of_nat (String.length before)) = before).
    { unfold slice_until. destruct (Z.ltb_spec (Z.of_nat (String.length before)) 0); [lia|].
      rewrite Nat2Z.id. apply str_take_app. }
    assert (Hdrop : slice_from (before ++ String "-" after)
                      (Z.of_nat (String.length before) + 1) = after).
    { unfold slice_from.
      destruct (Z.ltb_spec (Z.of_nat (String.length before) + 1) 0); [lia|].
      replace (Z.to_nat (Z.of_nat (String.length before) + 1))
        with (String.length (before ++ "-")) by (rewrite length_app; simpl; lia).
      change (before ++ String "-" after) with (before ++ "-" ++ after).
      rewrite <- (string_app_assoc before "-" after). apply str_drop_app. }
    rewrite Htake, Hdrop.
    assert (Hdiff : before ++ "_" ++ after <> before ++ String "-" after).
    { intros Heq. apply string_app_inv_head in Heq. discriminate Heq. }
    destruct (String.eqb_spec (before ++ "_" ++ after) (before ++ String "-" after));
      [contradiction|].
    split; [reflexivity|]. split; [|exact Hdiff].
    rewrite !length_app. reflexivity.
Qed.

Lemma new_name_replaces_last_hyphen_witness :
  new_name_of "mimir-7b-en.log" = Some "mimir-7b_en.log" /\
  new_name_of "qwq:32b_en.log" = None.
Proof.
  destruct (new_name_replaces_last_hyphen "mimir-7b-en.log") as [_ Hsome].
  destruct (Hsome "mimir-7b" "en.log" eq_refl eq_refl) as [Hnew _].
  destruct (new_name_replaces_last_hyphen "qwq:32b_en.log") as [Hnone _].
  split; [exact Hnew | apply Hnone; reflexivity].
Defined.

Lemma model_family_is_first_match_witness :
  Evaluate.occurs "magistral" (Evaluate.lower "NorwAI-Magistral-24B") = true /\
  Evaluate.occurs "norwai" (Evaluate.lower "NorwAI-Magistral-24B") = true.
Proof.
  destruct (model_family_is_first_match "NorwAI-Magistral-24B") as [_ Hfound].
  destruct Hfound as (before & after & _ & Hocc & _); [vm_compute; discriminate|].
  split; [exact Hocc | vm_compute; reflexivity].
Defined.

Lemma split_from_spaces (ws s : string) :
  all_chars isspace ws = true -> split_from "" (ws ++ s) = split_from "" s.
Proof.
  induction ws as [|ch ws IH]; [reflexivity|]. cbn [all_chars].
  intros H. apply andb_true_iff in H as [Hch Hws].
  rewrite app_cons. cbn [split_from]. rewrite Hch. cbn [String.eqb]. apply IH, Hws.
Qed.

Lemma split_from_word (name : string) : forall word s,
  all_chars (fun ch => negb (isspace ch)) name = true ->
  split_from word (name ++ s) = split_from (word ++ name) s.
Proof.
  induction name as [|ch name IH]; intros word s.
  - intros _. rewrite app_nil, string_app_nil_r. reflexivity.
  - cbn [all_chars]. intros H. apply andb_true_iff in H as [Hch Hname].
    apply negb_true_iff in Hch.
    rewrite app_cons. cbn [split_from]. rewrite Hch, IH by exact Hname.
    rewrite string_app_assoc. reflexivity.
Qed.

Lemma split_from_only_spaces (ws : string) :
  all_chars isspace ws = true -> split_from "" ws = [].
Proof.
  intros Hws. rewrite <- (string_app_nil_r ws), split_from_spaces by exact Hws.
  reflexivity.
Qed.

Lemma split_from_never_empty (s : string) : forall word,
  Forall (fun m => m <> "") (split_from word s).
Proof.
  induction s as [|ch s IH]; intros word; cbn [split_from].
  - destruct (String.eqb_spec word ""); constructor; auto.
  - destruct (isspace ch); [|apply IH].
    destruct (String.eqb_spec word ""); [apply IH|]. constructor; [assumption|apply IH].
Qed.

(** X21.  [_pick_model] returns the explicit model when one is given and
    not empty.  Without one it returns the first word of the model list,
    the words being separated by white space, and it stops with
    [SystemExit] exactly when the list holds white space only. *)
Theorem pick_model_takes_first_word (explicit_model : option string) (models_str : string) :
  (forall m, explicit_model = Some m -> m <> "" ->
     _pick_model explicit_model models_str = Return m) /\
  (explicit_model = None \/ explicit_model = Some "" ->
   (all_chars isspace models_str = true <->
    _pick_model explicit_model models_str
    = Raise "SystemExit" "No model specified. Provide --model or set MODEL (or MODELS).") /\
   (forall ws name rest,
      models_str = ws ++ name ++ rest ->
      all_chars isspace ws = true ->
      name <> "" -> all_chars (fun ch => negb (isspace ch)) name = true ->
      rest = "" \/ starts_with_space rest = true ->
      _pick_model explicit_model models_str = Return name)).
Proof.
  split.
  - intros m -> Hm. destruct m; [congruence|reflexivity].
  - intros Hnone.
    assert (Hpick : _pick_model explicit_model models_str
              = match split models_str with
                | first :: _ => Return first
                | [] => Raise "SystemExit"
                          "No model specified. Provide --model or set MODEL (or MODELS)."
                end).
    { assert (Hfilter : List.filter (fun m => negb (String.eqb m "")) (split models_str)
                        = split models_str).
      { apply forallb_filter_id, forallb_forall. unfold split.
        pose proof (split_from_never_empty models_str "") as Hne.
        rewrite Forall_forall in Hne. intros m Hm.
        apply negb_true_iff, String.eqb_neq, Hne, list_elem_of_In, Hm. }
      destruct Hnone as [->| ->]; unfold _pick_model; rewrite Hfilter; reflexivity. }
    assert (Hword : forall ws name rest,
              models_str = ws ++ name ++ rest ->
              all_chars isspace ws = true ->
              name <> "" -> all_chars (fun ch => negb (isspace ch)) name = true ->
              rest = "" \/ starts_with_space rest = true ->
              exists others, split models_str = name :: others).
    { intros ws name rest -> Hws Hne Hname Hrest. unfold split.
      rewrite split_from_spaces, split_from_word by assumption. rewrite app_nil.
      destruct Hrest as [->|Hrest].
      - cbn [split_from]. destruct (String.eqb_spec name ""); [contradiction|]. eauto.
      - destruct rest as [|ch rest]; [discriminate|]. cbn [starts_with_space] in Hrest.
        cbn [split_from]. rewrite Hrest.
        destruct (String.eqb_spec name ""); [contradiction|]. eauto. }
    rewrite Hpick. split.
    + split.
      * intros Hall. unfold split. rewrite split_from_only_spaces by exact Hall.
        reflexivity.
      * intros Hraise. destruct (all_chars isspace models_str) eqn:Hall; [reflexivity|].
        exfalso. clear Hpick Hnone.
        assert (Hsplit : exists ws name rest,
                  models_str = ws ++ name ++ rest /\ all_chars isspace ws = true /\
                  name <> "" /\ all_chars (fun ch => negb (isspace ch)) name = true /\
                  (rest = "" \/ starts_with_space rest = true)).
        { clear Hraise Hword. induction models_str as [|ch s IH]; [discriminate|].
          cbn [all_chars] in Hall. destruct (isspace ch) eqn:Hch.
          - destruct (IH Hall) as (ws & name & rest & -> & Hws & Hne & Hname & Hrest).
            exists (String ch ws), name, rest. split; [reflexivity|].
            cbn [all_chars]. rewrite Hch, Hws. auto.
          - clear IH Hall.
            assert (Hrun : forall t, exists name rest,
                      t = name ++ rest /\
                      all_chars (fun ch => negb (isspace ch)) name = true /\
                      (rest = "" \/ starts_with_space rest = true)).
            { induction t as [|c t IHt].
              - exists "", "". auto.
              - destruct (isspace c) eqn:Hc.
                + exists "", (String c t). split; [reflexivity|]. split; [reflexivity|].
                  right. exact Hc.
                + destruct IHt as (name & rest & -> & Hname & Hrest).
                  exists (String c name), rest. split; [reflexivity|].
                  cbn [all_chars]. rewrite Hc, Hname. auto. }
            destruct (Hrun s) as (name & rest & -> & Hname & Hrest).
            exists "", (String ch name), rest. split; [reflexivity|].
            split; [reflexivity|]. split; [discriminate|].
            cbn [all_chars]. rewrite Hch, Hname. auto. }
        destruct Hsplit as (ws & name & rest & Heq & Hws & Hne & Hname & Hrest).
        destruct (Hword ws name rest Heq Hws Hne Hname Hrest) as [others Hs].
        rewrite Hs in Hraise. discriminate.
    + intros ws name rest Heq Hws Hne Hname Hrest.
      destruct (Hword ws name rest Heq Hws Hne Hname Hrest) as [others Hs].
      rewrite Hs. reflexivity.
Qed.

Lemma pick_model_takes_first_word_witness :
  _pick_model (Some "qwen3:8b") "a b" = Return "qwen3:8b" /\
  _pick_model None "  llama3.1:8b qwen3:8b" = Return "llama3.1:8b" /\
  _pick_model (Some "") "   "
  = Raise "SystemExit" "No model specified. Provide --model or set MODEL (or MODELS).".
Proof.
  destruct (pick_model_takes_first_word (Some "qwen3:8b") "a b") as [Hexplicit _].
  destruct (pick_model_takes_first_word None "  llama3.1:8b qwen3:8b") as [_ Hlist].
  destruct (Hlist ltac:(left; reflexivity)) as [_ Hword].
  destruct (pick_model_takes_first_word (Some "") "   ") as [_ Hblank].
  destruct (Hblank ltac:(right; reflexivity)) as [[Hraise _] _].
  split; [apply Hexplicit; [reflexivity|discriminate]|]. split.
  - apply (Hword "  " "llama3.1:8b" " qwen3:8b");
      [reflexivity|reflexivity|discriminate|reflexivity|right; reflexivity].
  - apply Hraise. reflexivity.
Defined.

End NamesMore.

(* ===================================================================== *)
(** * The GPU count of a run                                              *)
(* ===================================================================== *)

Section GpuCount.
Import Py PyText AddGpuCount.
Local Open Scope string_scope.

Lemma rsplit_head_last (sep : ascii) (before after : string) :
  has_char sep after = false ->
  rsplit_head sep (before ++ String sep after) = before.
Proof.
  intros Hafter. unfold rsplit_head. rewrite (rfind_app_last sep before after Hafter).
  destruct (Z.ltb_spec (Z.of_nat (String.length before)) 0); [lia|].
  unfold slice_until.
  destruct (Z.ltb_spec (Z.of_nat (String.length before)) 0); [lia|].
  rewrite Nat2Z.id. apply str_take_app.
Qed.

Lemma rsplit_head_none (sep : ascii) (s : string) :
  has_char sep s = false -> rsplit_head sep s = s.
Proof.
  intros Hno. unfold rsplit_head. apply rfind_none in Hno. rewrite Hno. reflexivity.
Qed.

Lemma gpu_counts_range (key : string) (n : Z) :
  GPU_COUNTS !! key = Some n -> (2 <= n <= 4)%Z.
Proof.
  unfold GPU_COUNTS. rewrite !lookup_insert, lookup_empty.
  repeat case_decide; intros [= <-]; lia.
Qed.

(** X22.  The GPU count given to a log file is looked up under what stands
    before the last underscore of its stem, under the whole stem when there
    is no underscore, and is the default when the table has no such key; a
    count from the table is 2, 3 or 4. *)
Theorem num_gpus_looked_up_before_last_underscore
    (stem : string) (default_num_gpus : Z) :
  (forall model rest,
     stem = model ++ "_" ++ rest -> has_char "_" rest = false ->
     num_gpus_for stem default_num_gpus = default default_num_gpus (GPU_COUNTS !! model)) /\
  (has_char "_" stem = false ->
   num_gpus_for stem default_num_gpus = default default_num_gpus (GPU_COUNTS !! stem)) /\
  (num_gpus_for stem default_num_gpus = default_num_gpus \/
   (2 <= num_gpus_for stem default_num_gpus <= 4)%Z).
Proof.
  unfold num_gpus_for. split; [|split].
  - intros model rest -> Hrest.
    change (model ++ "_" ++ rest) with (model ++ String "_" rest).
    rewrite rsplit_head_last by exact Hrest. reflexivity.
  - intros Hno. rewrite rsplit_head_none by exact Hno. reflexivity.
  - destruct (GPU_COUNTS !! rsplit_head "_" stem) as [n|] eqn:Hlook; cbn [default].
    + right. eapply gpu_counts_range, Hlook.
    + left. reflexivity.
Qed.

Lemma num_gpus_looked_up_before_last_underscore_witness :
  num_gpus_for "llama3.1:405b_en" 1 = 4%Z /\ num_gpus_for "llama3.1:405b-en" 1 = 1%Z.
Proof.
  destruct (num_gpus_looked_up_before_last_underscore "llama3.1:405b_en" 1)
    as (Hunder & _ & _).
  destruct (num_gpus_looked_up_before_last_underscore "llama3.1:405b-en" 1)
    as (_ & Hwhole & _).
  split.
  - rewrite (Hunder "llama3.1:405b" "en" eq_refl eq_refl). reflexivity.
  - rewrite (Hwhole eq_refl). reflexivity.
Defined.

(** The update of one log record leaves a record that has [num_gpus]
    alone; to a record without it it adds the looked-up count and changes
    no other key, and the record it writes is left alone by a second
    pass. *)
Lemma backfill_adds_only_when_missing
    {V : Type} (of_int : Z -> V) (stem : string) (data : gmap string V) (dflt : Z) :
  (is_Some (data !! "num_gpus") -> backfill of_int stem data dflt = None) /\
  (data !! "num_gpus" = None ->
   exists written,
     backfill of_int stem data dflt = Some written /\
     written !! "num_gpus" = Some (of_int (num_gpus_for stem dflt)) /\
     (forall key, key <> "num_gpus" -> written !! key = data !! key) /\
     backfill of_int stem written dflt = None).
Proof.
  unfold backfill. split.
  - intros [v Hv]. rewrite Hv. reflexivity.
  - intros Hnone. rewrite Hnone. eexists. split; [reflexivity|].
    rewrite lookup_insert_eq. split; [reflexivity|]. split; [|reflexivity].
    intros key Hkey. apply lookup_insert_ne. congruence.
Qed.

Lemma backfill_adds_only_when_missing_witness :
  backfill Z.to_nat "qwen3:235b_no" (<["num_q" := 1000]> ∅) 1
  = Some (<["num_gpus" := 2]> (<["num_q" := 1000]> ∅)) /\
  backfill Z.to_nat "qwen3:235b_no" (<["num_gpus" := 7]> ∅) 1 = None.
Proof.
  destruct (backfill_adds_only_when_missing Z.to_nat "qwen3:235b_no"
              (<["num_q" := 1000]> ∅) 1) as [_ Hadd].
  destruct (backfill_adds_only_when_missing Z.to_nat "qwen3:235b_no"
              (<["num_gpus" := 7]> ∅) 1) as [Hskip _].
  split.
  - destruct (Hadd eq_refl) as (written & Hwritten & _). rewrite Hwritten.
    vm_compute in Hwritten. injection Hwritten as <-. vm_compute. reflexivity.
  - apply Hskip. eexists. reflexivity.
Defined.

End GpuCount.

(* ===================================================================== *)
(** * More on the run                                                     *)
(* ===================================================================== *)

Section RunnerMore.
Import Py Evaluate.
Local Open Scope string_scope.

Variable backend : nat -> Z -> request -> outcome string.
Variable now : nat -> string.
Variable norwegian_prompt : string.

Lemma lookup_slice_to {A} (xs : list A) (n : Z) (i : nat) (x : A) :
  slice_to xs n !! i = Some x -> xs !! i = Some x.
Proof.
  unfold slice_to. destruct (n <? 0)%Z; intros H;
    apply lookup_take_Some in H as [H _]; exact H.
Qed.

(** X24.  The run answers a prefix of the question list: with a [num_q]
    that is not negative it returns [min(num_q, len)] entries, with a
    negative one it leaves that many questions off the end, and the entry at
    an index always belongs to the question at that index of the file. *)
Theorem run_eval_answers_a_prefix
    (config : EvalConfig) (qa_pairs : list jobject)
    (results : list qa_result) (out : list string) :
  run (run_eval backend now norwegian_prompt config qa_pairs) = (Return results, out) ->
  length results
  = (if (num_q config <? 0)%Z
     then length qa_pairs - Z.to_nat (- num_q config)
     else Nat.min (Z.to_nat (num_q config)) (length qa_pairs)) /\
  (forall i r, results !! i = Some r ->
     exists qa, qa_pairs !! i = Some qa /\
       question_num r = Z.of_nat i /\
       question r = str (get qa "question" (JStr "")) /\
       correct_ans r = str (get qa "answer" (JStr ""))).
Proof.
  intros Hrun. apply run_eval_returns in Hrun. subst results. split.
  - rewrite length_map. unfold enumerate. rewrite length_enumerate_from.
    unfold _load_pairs, slice_to.
    destruct (num_q config <? 0)%Z; rewrite length_take; lia.
  - intros i r. rewrite lookup_records.
    destruct (_load_pairs qa_pairs (num_q config) !! i) as [qa|] eqn:Hqa; [|discriminate].
    intros [= <-]. exists qa. split; [|auto].
    eapply lookup_slice_to, Hqa.
Qed.

(** With failures that are exceptions and a negative delay, the one
    exception the retry loop can end with is the [ValueError] of [sleep]. *)
Lemma attempt_loop_raises_only (config : EvalConfig) (idx : nat) (req : request) :
  failures_are_exceptions backend ->
  sleep_refuses (retry_sleep_s config) ->
  forall todo last_exc out cls msg out',
    attempt_loop backend config idx req todo last_exc out = (Raise cls msg, out') ->
    cls = "ValueError" /\ msg = "sleep length must be non-negative".
Proof.
  intros Hexc Hneg.
  induction todo as [|attempt todo IH]; intros last_exc out cls msg out' Hrun.
  - discriminate.
  - cbn [attempt_loop] in Hrun.
    destruct (backend idx attempt req) as [text|c exc] eqn:Hcall; [discriminate|].
    rewrite (Hexc _ _ _ _ _ Hcall) in Hrun.
    unfold mbind, io_mbind, io_bind, print in Hrun.
    destruct (attempt <? max_retries config)%Z.
    + rewrite (sleep_hasty _ _ Hneg) in Hrun. inversion Hrun. auto.
    + eapply IH, Hrun.
Qed.

Lemma question_body_raises_only (config : EvalConfig) (system_prompt : string)
    (item : nat * jobject) (acc : list qa_result) out cls msg out' :
  failures_are_exceptions backend ->
  sleep_refuses (retry_sleep_s config) ->
  question_body backend now config system_prompt item acc out = (Raise cls msg, out') ->
  cls = "ValueError" /\ msg = "sleep length must be non-negative".
Proof.
  intros Hexc Hneg.
  destruct item as [idx qa]. unfold question_body, mbind, io_mbind, io_bind at 1.
  destruct (attempt_loop _ _ _ _ _ _ _) as [[ans|c m] out1] eqn:Hloop.
  - unfold io_bind, print, mret, io_mret, io_ret.
    destruct (((Z.of_nat idx + 1) mod 25 =? 0)%Z || (idx =? 0)%nat); discriminate.
  - intros [= -> -> _]. eapply attempt_loop_raises_only; eassumption.
Qed.

(** A question whose first attempt fails, with a second attempt allowed and
    a negative delay, stops the loop over the questions. *)
Lemma question_body_hasty (config : EvalConfig) (system_prompt : string)
    (idx : nat) (qa : jobject) (acc : list qa_result) (out : list string) cls exc :
  failures_are_exceptions backend ->
  sleep_refuses (retry_sleep_s config) ->
  (2 <= max_retries config)%Z ->
  backend idx 1 (Request (model config) system_prompt (str (get qa "question" (JStr ""))))
  = Raise cls exc ->
  (question_body backend now config system_prompt (idx, qa) acc out).1
  = Raise "ValueError" "sleep length must be non-negative".
Proof.
  intros Hexc Hneg Hretries Hfail.
  unfold question_body, mbind, io_mbind, io_bind at 1.
  rewrite (range_split 1 (max_retries config + 1) 1) by lia.
  replace (range 1 1) with (@nil Z) by reflexivity.
  cbn [app attempt_loop]. rewrite Hfail, (Hexc _ _ _ _ _ Hfail).
  unfold mbind, io_mbind, io_bind, print.
  replace (1 <? max_retries config)%Z with true by (symmetry; apply Z.ltb_lt; lia).
  rewrite (sleep_hasty _ _ Hneg). reflexivity.
Qed.

Lemma question_loop_hasty (config : EvalConfig) (system_prompt : string)
    (idx : nat) (qa : jobject) cls exc :
  failures_are_exceptions backend ->
  sleep_refuses (retry_sleep_s config) ->
  (2 <= max_retries config)%Z ->
  backend idx 1 (Request (model config) system_prompt (str (get qa "question" (JStr ""))))
  = Raise cls exc ->
  forall items acc out,
    (idx, qa) ∈ items ->
    (for_each items (question_body backend now config system_prompt) acc out).1
    = Raise "ValueError" "sleep length must be non-negative".
Proof.
  intros Hexc Hneg Hretries Hfail.
  induction items as [|item items IH]; intros acc out Hin.
  - inversion Hin.
  - cbn [for_each]. unfold io_bind.
    destruct (question_body backend now config system_prompt item acc out)
      as [[acc'|c m] out1] eqn:Hbody.
    + apply elem_of_cons in Hin as [<-|Hin]; [|apply IH, Hin].
      pose proof (question_body_hasty config system_prompt idx qa acc out cls exc
                    Hexc Hneg Hretries Hfail) as Hraise.
      rewrite Hbody in Hraise. discriminate Hraise.
    + apply question_body_raises_only in Hbody as [-> ->]; [reflexivity|assumption..].
Qed.

Lemma elem_of_enumerate {A} (xs : list A) (i : nat) (x : A) :
  xs !! i = Some x -> (i, x) ∈ enumerate xs.
Proof.
  intros Hx. apply list_elem_of_lookup. exists i. unfold enumerate.
  rewrite lookup_enumerate_from, Hx. reflexivity.
Qed.

(** X25.  With a negative delay between attempts the run does not survive
    a retry: when the failures of the backend are exceptions that
    [except Exception] catches, some question's first attempt fails and a
    second attempt is allowed, [time.sleep] raises [ValueError] out of the
    run and no results are returned.  (The delay is to fit the 64 bits of
    nanoseconds, below which [time.sleep] raises [OverflowError].) *)
Theorem negative_delay_aborts_the_run
    (config : EvalConfig) (qa_pairs : list jobject) (idx : nat) (qa : jobject)
    (cls exc : string) :
  sleep_refuses (retry_sleep_s config) ->
  (2 <= max_retries config)%Z ->
  failures_are_exceptions backend ->
  _load_pairs qa_pairs (num_q config) !! idx = Some qa ->
  backend idx 1 (request_for norwegian_prompt config qa) = Raise cls exc ->
  (run (run_eval backend now norwegian_prompt config qa_pairs)).1
  = Raise "ValueError" "sleep length must be non-negative".
Proof.
  intros Hneg Hretries Hexc Hqa Hfail.
  unfold run, run_eval, mbind, io_mbind, io_bind, print.
  eapply question_loop_hasty; try eassumption.
  apply elem_of_enumerate, Hqa.
Qed.

End RunnerMore.

Section RunnerMoreWitnesses.
Import Py Evaluate.
Local Open Scope string_scope.

Lemma run_eval_answers_a_prefix_witness :
  exists results out,
    run (run_eval Sample.sample_backend Sample.sample_now "" Sample.sample_config
           Sample.sample_pairs) = (Return results, out) /\
    length results = 3.
Proof.
  destruct sample_run_returns as [out Hrun].
  eexists _, out. split; [exact Hrun|].
  destruct (run_eval_answers_a_prefix Sample.sample_backend Sample.sample_now ""
              Sample.sample_config Sample.sample_pairs _ out Hrun)
    as [Hlen _].
  rewrite Hlen. reflexivity.
Defined.

Lemma negative_delay_aborts_the_run_witness :
  sleep_refuses (retry_sleep_s Sample.hasty_config) /\
  failures_are_exceptions Sample.sample_backend /\
  (run (run_eval Sample.sample_backend Sample.sample_now "" Sample.hasty_config
          Sample.sample_pairs)).1
  = Raise "ValueError" "sleep length must be non-negative".
Proof.
  assert (H1 : sleep_refuses (retry_sleep_s Sample.hasty_config))
    by (split; [reflexivity | discriminate]).
  assert (H2 : failures_are_exceptions Sample.sample_backend).
  { intros [|[|idx]] attempt req cls exc Hcall; simpl in Hcall.
    - discriminate.
    - destruct (attempt =? 2)%Z; [discriminate|].
      injection Hcall as <- _. reflexivity.
    - injection Hcall as <- _. reflexivity. }
  split; [exact H1|]. split; [exact H2|].
  apply (negative_delay_aborts_the_run Sample.sample_backend Sample.sample_now ""
           Sample.hasty_config Sample.sample_pairs 1 (Sample.qa_pair "q1" "a1")
           "ConnectionError" "refused").
  - exact H1.
  - simpl. lia.
  - exact H2.
  - reflexivity.
  - reflexivity.
Defined.

End RunnerMoreWitnesses.

(* ===================================================================== *)
(** * More on the reasoning span                                          *)
(* ===================================================================== *)

Section SpanMore.
Import Py Evaluate.
Local Open Scope string_scope.

Lemma strip_prefix_app (pat a b rest : string) :
  strip_prefix pat a = Some rest -> strip_prefix pat (a ++ b) = Some (rest ++ b).
Proof.
  intros H. apply strip_prefix_spec in H. subst a.
  apply strip_prefix_spec. apply string_app_assoc.
Qed.

Lemma occurs_after_prefix (pat q t inner : string) :
  strip_prefix pat t = Some inner -> occurs q inner = true -> occurs q t = true.
Proof.
  intros Ht Hinner. apply strip_prefix_spec in Ht. subst t.
  apply occurs_app_r, Hinner.
Qed.

(** The last end marker of a text that holds one. *)
Lemma last_end_marker (t : string) :
  occurs "</think>" t = true ->
  exists mid post, t = mid ++ "</think>" ++ post /\ occurs "</think>" post = false.
Proof.
  induction t as [|ch t IH]; [discriminate|]. intros Hocc.
  destruct (occurs "</think>" t) eqn:Hlater.
  - destruct (IH eq_refl) as (mid & post & -> & Hpost).
    exists (String ch mid), post. split; [reflexivity|exact Hpost].
  - rewrite occurs_cons, Hlater in Hocc.
    destruct (strip_prefix "</think>" (String ch t)) as [post|] eqn:Hhere; [|discriminate].
    exists "", post.
    split; [rewrite app_nil; apply (strip_prefix_spec "</think>"), Hhere|].
    destruct (occurs "</think>" post) eqn:Hpost; [|reflexivity].
    rewrite strip_prefix_cons in Hhere.
    destruct (Ascii.eqb "<" ch); [|discriminate].
    rewrite (occurs_after_prefix _ _ _ _ Hhere Hpost) in Hlater. discriminate.
Qed.

(** A text with a span splits at its first start marker and its last end
    marker. *)
Lemma span_decomposition (s : string) :
  has_span s = true ->
  exists pre mid post,
    s = pre ++ "<think>" ++ mid ++ "</think>" ++ post /\
    occurs "<think>" pre = false /\ occurs "</think>" post = false.
Proof.
  induction s as [|ch s IH]; [discriminate|]. rewrite has_span_cons.
  destruct (strip_prefix "<think>" (String ch s)) as [inner|] eqn:Hhere.
  - destruct (occurs "</think>" inner) eqn:Hinner.
    + intros _. destruct (last_end_marker inner Hinner) as (mid & post & -> & Hpost).
      exists "", mid, post.
      split; [rewrite app_nil; apply (strip_prefix_spec "<think>"), Hhere|].
      split; [reflexivity|exact Hpost].
    + cbn [orb]. intros Hspan.
      destruct (IH Hspan) as (pre & mid & post & -> & Hpre & Hpost).
      exists (String ch pre), mid, post. split; [reflexivity|]. split; [|exact Hpost].
      rewrite occurs_cons, Hpre.
      destruct (strip_prefix "<think>" (String ch pre)) as [x|] eqn:Hx; [|reflexivity].
      exfalso.
      apply (strip_prefix_app _ _ ("<think>" ++ mid ++ "</think>" ++ post)) in Hx.
      rewrite app_cons, Hhere in Hx. injection Hx as ->.
      assert (Hocc : occurs "</think>" (x ++ "<think>" ++ mid ++ "</think>" ++ post) = true).
      { apply occurs_spec. exists (x ++ "<think>" ++ mid), post.
        rewrite !string_app_assoc. reflexivity. }
      rewrite Hocc in Hinner. discriminate.
  - intros Hspan. destruct (IH Hspan) as (pre & mid & post & -> & Hpre & Hpost).
    exists (String ch pre), mid, post. split; [reflexivity|]. split; [|exact Hpost].
    rewrite occurs_cons, Hpre.
    destruct (strip_prefix "<think>" (String ch pre)) as [x|] eqn:Hx; [|reflexivity].
    apply (strip_prefix_app _ _ ("<think>" ++ mid ++ "</think>" ++ post)) in Hx.
    rewrite app_cons, Hhere in Hx. discriminate.
Qed.

(** What is left of the text holds no span: a start marker can form across
    the joint, but no end marker comes after it. *)
Lemma joined_has_no_span (t : string) :
  occurs "</think>" t = false ->
  forall pre, occurs "<think>" pre = false -> has_span (pre ++ t) = false.
Proof.
  intros Ht. induction pre as [|ch pre IH]; intros Hpre.
  - rewrite app_nil. apply has_span_none, Ht.
  - rewrite app_cons, has_span_cons.
    rewrite IH by (eapply occurs_tail, Hpre).
    destruct (strip_prefix "<think>" (String ch (pre ++ t))) as [inner|] eqn:Hhere;
      [|reflexivity].
    rewrite orb_false_r.
    destruct (occurs "</think>" inner) eqn:Hinner; [|reflexivity]. exfalso.
    rewrite occurs_cons in Hpre.
    destruct (strip_prefix "<think>" (String ch pre)) eqn:Hpat; [discriminate|].
    clear IH Hpre. revert Hhere Hpat. rewrite !strip_prefix_cons.
    destruct (Ascii.eqb "<" ch); [|discriminate].
    do 6 (destruct pre as [|? pre];
          [rewrite app_nil; intros Hhere _;
           rewrite (occurs_after_prefix _ _ _ _ Hhere Hinner) in Ht; discriminate|];
          rewrite app_cons, !strip_prefix_cons;
          destruct (Ascii.eqb _ _); [|discriminate]).
    discriminate.
Qed.

Lemma lstrip_is_suffix (s : string) : exists l, s = l ++ lstrip s.
Proof.
  induction s as [|ch s [l IH]]; [exists ""; reflexivity|]. cbn [lstrip].
  destruct (isspace ch).
  - exists (String ch l). rewrite app_cons, <- IH. reflexivity.
  - exists "". reflexivity.
Qed.

Lemma rstrip_is_prefix (s : string) : exists r, s = rstrip s ++ r.
Proof.
  induction s as [|ch s [r IH]]; [exists ""; reflexivity|]. cbn [rstrip].
  destruct (rstrip s) as [|c' r'] eqn:Hr.
  - destruct (isspace ch).
    + exists (String ch s). reflexivity.
    + exists s. reflexivity.
  - exists r. rewrite app_cons, <- IH. reflexivity.
Qed.

Lemma has_span_factor (l u r : string) :
  has_span (l ++ u ++ r) = false -> has_span u = false.
Proof.
  intros Hwhole. apply not_true_iff_false. intros Hu.
  apply not_true_iff_false in Hwhole. apply Hwhole.
  apply has_span_spec in Hu as (a & b & c & ->).
  apply has_span_spec. exists (l ++ a), b, (c ++ r).
  rewrite !string_app_assoc. reflexivity.
Qed.

(** The substitution leaves no span, and trimming brings none back. *)
Lemma re_sub_leaves_no_span (ans : string) :
  has_span (re_sub THINK_REGEX "" ans) = false.
Proof.
  destruct (has_span ans) eqn:Hspan.
  - destruct (span_decomposition ans Hspan) as (pre & mid & post & -> & Hpre & Hpost).
    rewrite re_sub_span by assumption.
    apply joined_has_no_span; [apply occurs_drop_newline, Hpost | exact Hpre].
  - rewrite re_sub_no_span; assumption.
Qed.

Lemma strip_has_no_span (text : string) :
  has_span text = false -> has_span (strip text) = false.
Proof.
  intros Htext. unfold strip.
  destruct (lstrip_is_suffix text) as [l Hl].
  destruct (rstrip_is_prefix (lstrip text)) as [r Hr].
  apply (has_span_factor l _ r). rewrite <- Hr, <- Hl. exact Htext.
Qed.

(** C4, amended.  With the rule on, the spans are removed, newlines inside
    them included, and the rest is trimmed: the recorded answer holds no
    start marker followed by an end marker; a text with one span, the end
    marker being the only one, becomes what stood before the span followed
    by what stood after it, less one newline right after the end marker;
    in every text what stood before the first start marker and what stood
    after the last end marker is kept, whatever becomes of the text between
    two spans; and a text in which no start marker is followed by an end
    marker is only trimmed. *)
Theorem think_spans_removed (pre mid post s : string) :
  has_span (clean_answer true s) = false /\
  (occurs "<think>" pre = false ->
   occurs "</think>" mid = false ->
   occurs "</think>" post = false ->
   clean_answer true (pre ++ "<think>" ++ mid ++ "</think>" ++ post)
   = strip (pre ++ drop_newline post)) /\
  (occurs "<think>" pre = false ->
   occurs "</think>" post = false ->
   exists kept,
     clean_answer true (pre ++ "<think>" ++ mid ++ "</think>" ++ post)
     = strip (pre ++ kept ++ drop_newline post)) /\
  (has_span s = false -> clean_answer true s = strip s).
Proof.
  unfold clean_answer. split; [|split; [|split]].
  - apply strip_has_no_span, re_sub_leaves_no_span.
  - intros Hpre _ Hpost. rewrite re_sub_span by assumption. reflexivity.
  - intros Hpre Hpost. exists "". rewrite re_sub_span by assumption.
    rewrite app_nil. reflexivity.
  - intros Hspan. rewrite re_sub_no_span by assumption. reflexivity.
Qed.

Lemma think_spans_removed_witness :
  occurs "<think>" " So: " = false /\
  occurs "</think>" (String "a" (String newline "b")) = false /\
  occurs "</think>" (String newline " Oslo ") = false /\
  has_span "<think> Oslo" = false /\
  has_span (clean_answer true "<think> Oslo") = false /\
  clean_answer true
    (" So: " ++ "<think>" ++ String "a" (String newline "b")
     ++ "</think>" ++ String newline " Oslo ")
  = "So:  Oslo" /\
  (exists kept,
     clean_answer true
       (" So: " ++ "<think>" ++ String "a" (String newline "b")
        ++ "</think>" ++ String newline " Oslo ")
     = strip (" So: " ++ kept ++ drop_newline (String newline " Oslo "))) /\
  clean_answer true "<think> Oslo" = "<think> Oslo".
Proof.
  assert (H1 : occurs "<think>" " So: " = false) by (vm_compute; reflexivity).
  assert (H2 : occurs "</think>" (String "a" (String newline "b")) = false)
    by (vm_compute; reflexivity).
  assert (H3 : occurs "</think>" (String newline " Oslo ") = false)
    by (vm_compute; reflexivity).
  assert (H4 : has_span "<think> Oslo" = false) by (vm_compute; reflexivity).
  destruct (think_spans_removed " So: " (String "a" (String newline "b"))
              (String newline " Oslo ") "<think> Oslo")
    as (Hclean & Hone & Hkept & Hnone).
  split; [exact H1|]. split; [exact H2|]. split; [exact H3|]. split; [exact H4|].
  split; [exact Hclean|]. split; [|split].
  - rewrite (Hone H1 H2 H3). vm_compute. reflexivity.
  - exact (Hkept H1 H3).
  - rewrite (Hnone H4). vm_compute. reflexivity.
Defined.

(** X26.  With the rule on, the recorded answer never holds a start marker
    followed by an end marker, whatever the backend sent. *)
Theorem cleaned_answer_has_no_span (ans : string) :
  has_span (clean_answer true ans) = false.
Proof.
  unfold clean_answer. apply strip_has_no_span, re_sub_leaves_no_span.
Qed.

End SpanMore.
